(** * wuas-render: the table-file parser, the grid model, the compositor
      and the JSON exporter of [render.py], embedded in Rocq.

    Python values are modelled as follows.
    - [str] is [string] (the text is taken to be ASCII: non-ASCII white
      space and digits are outside the model);
    - [int] is [Z];
    - [None]-able values are [option];
    - a [dict] with string keys is a [gmap string _];
    - a raised exception is the [Err] case of [result];
    - a Pillow image is the canvas size together with the ordered log of
      the drawing calls made on it. *)

From Stdlib Require Import ZArith Ascii String List Lia Bool.
From stdpp Require Import base option list gmap strings.

Import ListNotations.
Local Open Scope string_scope.
Local Open Scope list_scope.
Local Open Scope Z_scope.

(** ** Python string primitives *)

Module Py.

(** [str.isspace] on one ASCII character: TAB..CR, FS..US and the blank. *)
Definition isspace (c : ascii) : bool :=
  let n := N_of_ascii c in
  ((9 <=? n) && (n <=? 13) || (28 <=? n) && (n <=? 32))%N.

(** [s.startswith(c)] for a one-character prefix. *)
Definition startswith (c : ascii) (s : string) : bool :=
  match s with
  | String a _ => Ascii.eqb a c
  | EmptyString => false
  end.

(** [s.endswith(c)] for a one-character suffix. *)
Fixpoint endswith (c : ascii) (s : string) : bool :=
  match s with
  | EmptyString => false
  | String a EmptyString => Ascii.eqb a c
  | String _ r => endswith c r
  end.

(** [s[:-1]]. *)
Fixpoint drop_last (s : string) : string :=
  match s with
  | EmptyString => EmptyString
  | String _ EmptyString => EmptyString
  | String a r => String a (drop_last r)
  end.

(** [s.count(c)] for a one-character needle. *)
Fixpoint count (c : ascii) (s : string) : Z :=
  match s with
  | EmptyString => 0
  | String a r => (if Ascii.eqb a c then 1 else 0) + count c r
  end.

(** [s.replace(c, "")] for a one-character needle. *)
Fixpoint remove (c : ascii) (s : string) : string :=
  match s with
  | EmptyString => EmptyString
  | String a r => if Ascii.eqb a c then remove c r else String a (remove c r)
  end.

(** [s.split(c)] for a one-character separator: never the empty list. *)
Fixpoint split (c : ascii) (s : string) : list string :=
  match s with
  | EmptyString => [EmptyString]
  | String a r =>
      if Ascii.eqb a c then EmptyString :: split c r
      else match split c r with
           | w :: ws => String a w :: ws
           | [] => [String a EmptyString]
           end
  end.

(** [l[1:-1]]. *)
Definition slice_1_m1 {A} (l : list A) : list A := removelast (tl l).

Fixpoint lstrip (s : string) : string :=
  match s with
  | String a r => if isspace a then lstrip r else s
  | EmptyString => EmptyString
  end.

Fixpoint rstrip (s : string) : string :=
  match s with
  | EmptyString => EmptyString
  | String a r =>
      match rstrip r with
      | EmptyString => if isspace a then EmptyString else String a EmptyString
      | r' => String a r'
      end
  end.

(** [s.strip()]. *)
Definition strip (s : string) : string := rstrip (lstrip s).

(** [s.split()]: maximal runs of non-blank characters.  [cur] is the word
    being read. *)
Fixpoint words_go (cur : option string) (s : string) : list string :=
  match s with
  | EmptyString =>
      match cur with Some w => [w] | None => [] end
  | String a r =>
      if isspace a then
        match cur with
        | Some w => w :: words_go None r
        | None => words_go None r
        end
      else
        match cur with
        | Some w => words_go (Some (w +:+ String a EmptyString)) r
        | None => words_go (Some (String a EmptyString)) r
        end
  end.

Definition words (s : string) : list string := words_go None s.

(** [list(s)]: the characters of [s] as one-character strings. *)
Fixpoint chars (s : string) : list string :=
  match s with
  | EmptyString => []
  | String a r => String a EmptyString :: chars r
  end.

Definition digit (c : ascii) : option Z :=
  let n := N_of_ascii c in
  if ((48 <=? n) && (n <=? 57))%N then Some (Z.of_N n - 48) else None.

(** The digits of an [int] literal given as text: decimal digits, with
    single underscores allowed between two digits.  [prev] tells whether
    the previous character was a digit. *)
Fixpoint digits_go (acc : Z) (prev : bool) (s : string) : option Z :=
  match s with
  | EmptyString => if prev then Some acc else None
  | String a r =>
      match digit a with
      | Some d => digits_go (10 * acc + d) true r
      | None =>
          if Ascii.eqb a "_"%char && prev then
            match r with
            | String b _ =>
                match digit b with
                | Some _ => digits_go acc false r
                | None => None
                end
            | EmptyString => None
            end
          else None
      end
  end.

(** The white space [int] skips around the number in an ASCII string:
    C's [isspace], that is TAB..CR and the blank, without FS..US. *)
Definition isspace_c (c : ascii) : bool :=
  let n := N_of_ascii c in
  ((9 <=? n) && (n <=? 13) || (n =? 32))%N.

Fixpoint lstrip_c (s : string) : string :=
  match s with
  | String a r => if isspace_c a then lstrip_c r else s
  | EmptyString => EmptyString
  end.

Fixpoint rstrip_c (s : string) : string :=
  match s with
  | EmptyString => EmptyString
  | String a r =>
      match rstrip_c r with
      | EmptyString => if isspace_c a then EmptyString else String a EmptyString
      | r' => String a r'
      end
  end.

(** The number of decimal digits of a text. *)
Fixpoint digit_count (s : string) : Z :=
  match s with
  | EmptyString => 0
  | String a r =>
      match digit a with Some _ => 1 | None => 0 end + digit_count r
  end.

(** [int(s)]: [None] stands for the [ValueError] raised on text that is
    not a decimal integer, or that has more than 4300 digits (the limit
    [sys.int_max_str_digits] at its default). *)
Definition int (s : string) : option Z :=
  if 4300 <? digit_count s then None
  else
    match rstrip_c (lstrip_c s) with
    | String "-" r => Z.opp <$> digits_go 0 false r
    | String "+" r => digits_go 0 false r
    | r => digits_go 0 false r
    end.

(** The lines of a text file, as successive [readline] calls return them:
    the text cut after every line feed (the text is taken to use bare line
    feeds). *)
Fixpoint readlines_go (cur : string) (s : string) : list string :=
  match s with
  | EmptyString =>
      match cur with EmptyString => [] | _ => [cur] end
  | String a r =>
      if Ascii.eqb a "010"%char
      then (cur +:+ String a EmptyString) :: readlines_go EmptyString r
      else readlines_go (cur +:+ String a EmptyString) r
  end.

Definition readlines (s : string) : list string := readlines_go EmptyString s.

(** [a or b] on an optional string: [None] and the empty string are falsy. *)
Definition str_or (a : option string) (b : string) : string :=
  match a with
  | Some EmptyString | None => b
  | Some s => s
  end.

End Py.

(** ** Exceptions *)

Inductive exn : Type :=
| KeyError (key : string)
| ValueError (what : string)
| NameError (name : string)
| OverflowError
| UnboundLocalError (var : string)
| IndexError.

Inductive result (A : Type) : Type :=
| Ok (a : A)
| Err (e : exn).
Arguments Ok {A} a.
Arguments Err {A} e.

#[global] Instance result_ret : MRet result := fun _ a => Ok a.
#[global] Instance result_bind : MBind result := fun _ _ k m =>
  match m with
  | Ok a => k a
  | Err e => Err e
  end.

(** An optional value whose absence raises [e]. *)
Definition or_raise {A} (e : exn) (o : option A) : result A :=
  match o with
  | Some a => Ok a
  | None => Err e
  end.

(** ** The grid model *)

(** [space_abbr] *)
Definition space_abbr (space : string) : option string :=
  let space := if Py.endswith "?" space then Py.drop_last space else space in
  if String.eqb space "nil" then None
  else if String.eqb space "" then Some "gap"
  else Some space.

(** [space_layer] *)
Definition space_layer (space : option string) : option Z :=
  match space with
  | None => None
  | Some s => if String.eqb s "gap" then Some 0 else Some 1
  end.

(** [class Space]: the fields set by [__init__]. *)
Record Space : Type := mkSpace {
  space : option string;
  refs : list string;
  show : bool
}.

(** [Space.__init__] *)
Definition Space_init (raw : string) (rs : list string) : Space :=
  {| space := space_abbr raw;
     refs := rs;
     show := negb (Py.endswith "?" raw) |}.

(** [Space.layer] *)
Definition layer (s : Space) : option Z := space_layer (space s).

(** [class Ref] *)
Record Ref : Type := mkRef {
  name : string;
  item : string;
  pos : Z * Z
}.

Definition WIDTH : Z := 32.
Definition HEIGHT : Z := 32.

(** ** The sprite dictionary

    [dictionary] is the JSON object of the dictionary file:
    [dictionary['spaces'][id]['coords']] is a string [x,y,w,h];
    [dictionary['items'][id]] and [dictionary['tokens'][id]] may hold a
    ['thumbnail'] pair and a ['span'] pair. *)

Record SpaceEntry : Type := mkSpaceEntry {
  coords : option string
}.

Record SpriteEntry : Type := mkSpriteEntry {
  thumbnail : option (Z * Z);
  span : option (Z * Z)
}.

Record Dictionary : Type := mkDictionary {
  d_spaces : gmap string SpaceEntry;
  d_items : gmap string SpriteEntry;
  d_tokens : gmap string SpriteEntry
}.

(** ** Pillow images

    The two sprite sheets are opened from files; a sprite is what
    [sheet.crop(box)] returns, kept as the sheet and the box
    [(left, upper, right, lower)]. *)

Inductive Sheet : Type := SpacesPng | TokensPng.

Record Sprite : Type := mkSprite {
  sheet : Sheet;
  box : Z * Z * Z * Z
}.

Definition crop (sh : Sheet) (b : Z * Z * Z * Z) : Sprite :=
  {| sheet := sh; box := b |}.

Definition sprite_width (i : Sprite) : Z :=
  let '(x0, _, x1, _) := box i in x1 - x0.

Definition sprite_height (i : Sprite) : Z :=
  let '(_, y0, _, y1) := box i in y1 - y0.

(** The calls that change the pixels of the result image. *)
Inductive DrawOp : Type :=
| Paste (img : Sprite) (at_ : Z * Z)
    (* result.paste(img, at_, img) *)
| Line (pts : list (Z * Z)) (fill : string) (width : Z).
    (* draw.line(pts, fill=fill, width=width) *)

(** The image being composed: [Image.new("RGBA", size)] followed by the
    calls of [log], oldest first. *)
Record Canvas : Type := mkCanvas {
  size : Z * Z;
  log : list DrawOp
}.

Definition Image_new (sz : Z * Z) : Canvas := {| size := sz; log := [] |}.

Definition draw (op : DrawOp) (c : Canvas) : Canvas :=
  {| size := size c; log := log c ++ [op] |}.

(** The integers Pillow hands to its C code must fit a C [int]. *)
Definition c_int (n : Z) : bool := (- 2 ^ 31 <=? n) && (n <? 2 ^ 31).

(** [sheet.crop(box)] on a box taken from the dictionary: Pillow refuses a
    box whose right is less than its left, or whose lower is less than its
    upper, with a [ValueError], and coordinates that do not fit a C [int]
    with an [OverflowError].  Pillow's limits on the size of an image
    (memory, decompression bomb) are not modelled. *)
Definition Image_crop (sh : Sheet) (b : Z * Z * Z * Z) : result Sprite :=
  let '(x0, y0, x1, y1) := b in
  if (x1 <? x0) || (y1 <? y0) then Err (ValueError "crop")
  else if c_int x0 && c_int y0 && c_int x1 && c_int y1 then Ok (crop sh b)
  else Err OverflowError.

(** [result.paste(img, at_, img)]: the box the image is pasted into is
    [at_] and [at_] plus the size of the image, and its four numbers must
    fit a C [int]. *)
Definition paste (img : Sprite) (at_ : Z * Z) (c : Canvas) : result Canvas :=
  let '(x, y) := at_ in
  if c_int x && c_int y &&
     c_int (x + sprite_width img) && c_int (y + sprite_height img)
  then Ok (draw (Paste img at_) c)
  else Err OverflowError.

(** The coordinates given to [ImageDraw] are read as C [double]s, which
    Python refuses for an integer that rounds to [2 ^ 1024] or more. *)
Definition c_double (n : Z) : bool := Z.abs n <? 2 ^ 1024 - 2 ^ 970.

(** [ImageDraw.Draw(image).line(pts, fill=fill, width=width)] *)
Definition ImageDraw_line (pts : list (Z * Z)) (fill : string) (width : Z)
    (image : Canvas) : result Canvas :=
  if forallb (fun p => c_double (fst p) && c_double (snd p)) pts
  then Ok (draw (Line pts fill width) image)
  else Err (ValueError "coordinate").

(** ** Image lookup *)

Section Lookup.

Variable dictionary : Dictionary.

(** [tuple(map(int, coords.split(",")))] *)
Fixpoint ints (l : list string) : result (list Z) :=
  match l with
  | [] => Ok []
  | s :: r =>
      n ← or_raise (ValueError "int") (Py.int s);
      ns ← ints r;
      Ok (n :: ns)
  end.

(** [Space.image] *)
Definition Space_image (self : Space) (spaces : Sheet) : result (option Sprite) :=
  match space self with
  | None => Ok None
  | Some id =>
      if negb (show self) then Ok None
      else
        entry ← or_raise (KeyError id) (d_spaces dictionary !! id);
        cs ← or_raise (KeyError "coords") (coords entry);
        ns ← ints (Py.split "," cs);
        match ns with
        | [x; y; w; h] =>
            img ← Image_crop spaces (x, y, w, h);
            Ok (Some img)
        | _ => Err (ValueError "unpack")
        end
  end.

(** [Ref._image] *)
Definition Ref__image (tokens : Sheet) (d : gmap string SpriteEntry)
    (name : string) : option Sprite :=
  match d !! name with
  | None => None
  | Some entry =>
      match thumbnail entry with
      | None => None
      | Some (x, y) =>
          let '(spanx, spany) :=
            match span entry with
            | Some sp => sp
            | None => (1, 1)
            end in
          Some (crop tokens (x, y, x + 16 * spanx, y + 16 * spany))
      end
  end.

(** [Ref.image]: a Pillow image is always truthy, so [a or b] is [b]
    exactly when [a] is [None]. *)
Definition Ref_image (self : Ref) (tokens : Sheet) : option Sprite :=
  match Ref__image tokens (d_items dictionary) (item self) with
  | Some img => Some img
  | None => Ref__image tokens (d_tokens dictionary) (name self)
  end.

End Lookup.

(** ** Directives *)

(** [highlight] *)
Definition highlight (image : Canvas) (args : list string) : result Canvas :=
  match args with
  | [rc; num] =>
      num ← or_raise (ValueError "int") (Py.int num);
      if String.eqb rc "ROW" then
        let '(x0, y0) := (0, HEIGHT * num) in
        let '(x1, y1) := (fst (size image), HEIGHT * (num + 1)) in
        ImageDraw_line [(x0, y0); (x0, y1); (x1, y1); (x1, y0); (x0, y0)] "red" 4 image
      else if String.eqb rc "COLUMN" then
        let '(x0, y0) := (WIDTH * num, 0) in
        let '(x1, y1) := (WIDTH * (num + 1), snd (size image)) in
        ImageDraw_line [(x0, y0); (x0, y1); (x1, y1); (x1, y0); (x0, y0)] "red" 4 image
      else Err (UnboundLocalError "x0")
  | _ => Err (ValueError "unpack")
  end.

(** The function objects a directive keyword can stand for: the
    functions of the module that [DIRECTIVES] holds. *)
Inductive Directive : Type := fn_highlight.

(** Calling such a function object. *)
Definition apply_fn (f : Directive) (image : Canvas) (args : list string)
    : result Canvas :=
  match f with
  | fn_highlight => highlight image args
  end.

Definition DIRECTIVES : gmap string Directive :=
  {[ "HIGHLIGHT" := fn_highlight ]}.

(** The lambda of [load_table], [lambda image: fn(image, data[1:])].  Its
    free variables [fn] and [data] are local variables of [load_table]:
    the lambda holds the enclosing frame, not the values the variables had
    when it was made, and reads them when it is called. *)
Inductive Lambda : Type := Lambda_image.

(** The two local variables of [load_table] the lambdas refer to. *)
Record Frame : Type := mkFrame {
  fn : option Directive;
  data : list string
}.

(** The list [dirs] together with the frame its lambdas share. *)
Record Dirs : Type := mkDirs {
  closures : list Lambda;
  frame : Frame
}.

(** Calling a lambda of [dirs] on the image. *)
Definition call (fr : Frame) (d : Lambda) (image : Canvas) : result Canvas :=
  match d with
  | Lambda_image =>
      f ← or_raise (UnboundLocalError "fn") (fn fr);
      apply_fn f image (tl (data fr))
  end.

(** ** The table parser *)

(** [infile] is the list of the lines not read yet: [readline] returns
    the first of them and the empty string at the end of the file. *)

(** [while infile.readline().startswith("#"): pass] *)
Fixpoint skip_comments (infile : list string) : list string :=
  match infile with
  | [] => []
  | line :: rest =>
      if Py.startswith "#" line then skip_comments rest else rest
  end.

Definition blank (line : string) : bool := String.eqb (Py.strip line) "".

(** [map(str.strip, line.split("|")[1:-1])] *)
Definition cells (line : string) : list string :=
  map Py.strip (Py.slice_1_m1 (Py.split "|" line)).

(** One row of the board, from its spaces line and its tokens line. *)
Definition read_row (spaces_arr tokens_arr : string) : list Space :=
  map (fun vz => Space_init (Py.remove "*" (fst vz)) (Py.chars (snd vz)))
      (zip (cells spaces_arr) (cells tokens_arr)).

(** The loop over the board text: a spaces line, a tokens line and the
    next header, until a blank line. *)
Fixpoint read_board (infile : list string) : list (list Space) * list string :=
  match infile with
  | [] => ([], [])
  | spaces_arr :: infile1 =>
      if blank spaces_arr then ([], infile1)
      else
        match infile1 with
        | [] => ([read_row spaces_arr ""], [])
        | tokens_arr :: infile2 =>
            match infile2 with
            | [] => ([read_row spaces_arr tokens_arr], [])
            | _ :: infile3 =>
                let '(table, rest) := read_board infile3 in
                (read_row spaces_arr tokens_arr :: table, rest)
            end
        end
  end.

(** The loop over the token references. *)
Fixpoint read_refs (refs : gmap string Ref) (infile : list string)
    : result (gmap string Ref * list string) :=
  match infile with
  | [] => Ok (refs, [])
  | curr :: rest =>
      if blank curr then Ok (refs, rest)
      else
        match Py.words curr with
        | [ref; name; item; x; y] =>
            x ← or_raise (ValueError "int") (Py.int x);
            y ← or_raise (ValueError "int") (Py.int y);
            read_refs (<[ref := mkRef name item (x, y)]> refs) rest
        | _ => Err (ValueError "unpack")
        end
  end.

(** The loop over the directives.  Every turn assigns the local variables
    [data] and [fn] and appends one more lambda to [dirs]. *)
Fixpoint read_dirs (dirs : list Lambda) (fr : Frame) (infile : list string)
    : result Dirs :=
  match infile with
  | [] => Ok (mkDirs dirs fr)
  | curr :: rest =>
      if blank curr then Ok (mkDirs dirs fr)
      else
        let data := Py.words curr in
        key ← or_raise IndexError (head data);
        fn ← or_raise (KeyError key) (DIRECTIVES !! key);
        read_dirs (dirs ++ [Lambda_image]) (mkFrame (Some fn) data) rest
  end.

(** [np.array(table)]: the rows are kept as a list of lists; rows of
    unequal lengths are refused with a [ValueError]. *)
Definition np_array (table : list (list Space)) : result (list (list Space)) :=
  match table with
  | [] => Ok table
  | row :: rest =>
      if forallb (fun r => Nat.eqb (length r) (length row)) rest
      then Ok table
      else Err (ValueError "inhomogeneous")
  end.

(** [load_table], on the text of the file.  The program runs under
    Python 3, where the name [StandardError] is not bound: the [raise] of
    an invalid version ends in a [NameError] for that name, before the
    message is built. *)
Definition load_table (text : string)
    : result (list (list Space) * gmap string Ref * Dirs) :=
  let infile := Py.readlines text in
  let infile := skip_comments infile in
  version ← or_raise (ValueError "int") (Py.int (hd "" infile));
  let infile := tl infile in
  if negb (version =? 1) then Err (NameError "StandardError")
  else
    let headline := hd "" infile in
    let infile := tl infile in
    let width := Py.count "+" headline - 1 in
    let '(table, infile) := read_board infile in
    '(refs, infile) ← read_refs ∅ infile;
    dirs ← read_dirs [] (mkFrame None []) infile;
    table ← np_array table;
    Ok (table, refs, dirs).

(** ** The compositor *)

(** [for i, a in enumerate(l): s = body(i, a, s)], counting from [i]. *)
Fixpoint for_enumerate {A S : Type} (body : Z -> A -> S -> result S)
    (i : Z) (l : list A) (s : S) : result S :=
  match l with
  | [] => Ok s
  | a :: r => s' ← body i a s; for_enumerate body (i + 1) r s'
  end.

(** [for a in l: s = body(a, s)] *)
Fixpoint for_each {A S : Type} (body : A -> S -> result S)
    (l : list A) (s : S) : result S :=
  match l with
  | [] => Ok s
  | a :: r => s' ← body a s; for_each body r s'
  end.

(** [table.shape] unpacked into two numbers.  An empty table makes a
    one-dimensional array, and so do rows of unequal lengths: the
    unpacking then fails. *)
Definition shape (table : list (list Space)) : option (Z * Z) :=
  match table with
  | [] => None
  | row :: rest =>
      if forallb (fun r => Nat.eqb (length r) (length row)) rest
      then Some (Z.of_nat (length table), Z.of_nat (length row))
      else None
  end.

Section Render.

Variable dictionary : Dictionary.

(** The body of the gap layer loop ([lyr = 0]) and of the normal space
    layer loop ([lyr = 1]). *)
Definition paste_space (lyr : Z) (y x : Z) (elem : Space) (res : Canvas)
    : result Canvas :=
  if decide (layer elem = Some lyr) then
    img ← Space_image dictionary elem SpacesPng;
    match img with
    | Some img => paste img (x * WIDTH, y * HEIGHT) res
    | None => Ok res
    end
  else Ok res.

Definition space_pass (lyr : Z) (table : list (list Space)) (res : Canvas)
    : result Canvas :=
  for_enumerate (fun y row => for_enumerate (paste_space lyr y) 0 row) 0 table res.

(** The body of the ref layer loop, for one ref code of one cell. *)
Definition paste_ref (refs : gmap string Ref) (y x : Z) (ref : string)
    (res : Canvas) : result Canvas :=
  r ← or_raise (KeyError ref) (refs !! ref);
  let img := Ref_image dictionary r TokensPng in
  let '(dx, dy) := pos r in
  match img with
  | Some img => paste img (x * WIDTH + dx, y * HEIGHT + dy) res
  | None => Ok res
  end.

Definition ref_pass (rt : gmap string Ref) (table : list (list Space))
    (res : Canvas) : result Canvas :=
  for_enumerate (fun y row =>
    for_enumerate (fun x elem => for_each (paste_ref rt y x) (refs elem)) 0 row)
    0 table res.

(** [for d in dirs: d(result)] *)
Definition run_dirs (dirs : Dirs) (res : Canvas) : result Canvas :=
  for_each (call (frame dirs)) (closures dirs) res.

(** [render_image] *)
Definition render_image (table : list (list Space)) (rt : gmap string Ref)
    (dirs : Dirs) : result Canvas :=
  '(height, width) ← or_raise (ValueError "unpack") (shape table);
  let res := Image_new (width * WIDTH, height * HEIGHT) in
  res ← space_pass 0 table res;
  res ← space_pass 1 table res;
  res ← ref_pass rt table res;
  res ← run_dirs dirs res;
  Ok res.

End Render.

(** ** The JSON exporter *)

Record TokenObj : Type := mkTokenObj {
  object : string;
  position : Z * Z
}.

Record Board : Type := mkBoard {
  b_spaces : list (list string);
  b_tokens : list TokenObj
}.

(** The body of [for ref in elem.refs] in [render_json]. *)
Definition json_ref (rt : gmap string Ref) (y x : Z) (ref : string)
    (tokens : list TokenObj) : result (list TokenObj) :=
  r ← or_raise (KeyError ref) (rt !! ref);
  let name := name r in
  let '(dx, dy) := pos r in
  let name := if String.eqb name "item" then item r else name in
  let obj := {| object := name;
                position := (x * WIDTH + dx, y * HEIGHT + dy) |} in
  Ok (tokens ++ [obj]).

(** The body of [for x, elem in enumerate(row)]: the state is [curr] and
    [tokens]. *)
Definition json_cell (rt : gmap string Ref) (y x : Z) (elem : Space)
    (st : list string * list TokenObj) : result (list string * list TokenObj) :=
  let '(curr, tokens) := st in
  let curr := curr ++ [Py.str_or (space elem) "gap"] in
  tokens ← for_each (json_ref rt y x) (refs elem) tokens;
  Ok (curr, tokens).

(** The body of [for y, row in enumerate(table)]: the state is [spaces]
    and [tokens]. *)
Definition json_row (rt : gmap string Ref) (y : Z) (row : list Space)
    (st : list (list string) * list TokenObj)
    : result (list (list string) * list TokenObj) :=
  let '(spaces, tokens) := st in
  '(curr, tokens) ← for_enumerate (json_cell rt y) 0 row ([], tokens);
  Ok (spaces ++ [curr], tokens).

(** [render_json] *)
Definition render_json (table : list (list Space)) (rt : gmap string Ref)
    : result (gmap string Board) :=
  '(spaces, tokens) ← for_enumerate (json_row rt) 0 table ([], []);
  let data := {[ "0" := {| b_spaces := spaces; b_tokens := tokens |} ]} in
  Ok data.

(** [__main__]: what is written out, if anything. *)
Inductive Output : Type :=
| SavedImage (img : Canvas)
| PrintedJson (data : gmap string Board)
| NoOutput.

Definition main (dictionary : Dictionary) (setting : string) (text : string)
    : result Output :=
  '(table, rt, dirs) ← load_table text;
  if String.eqb setting "-i" then
    img ← render_image dictionary table rt dirs;
    Ok (SavedImage img)
  else if String.eqb setting "-t" then
    data ← render_json table rt;
    Ok (PrintedJson data)
  else Ok NoOutput.

(** ** Pixels

    What the pastes of a log leave at one point of the image.  Pillow's
    [paste] with a mask blends every covered pixel with the pixel of the
    pasted image, weighted by the alpha of the mask: where the mask is
    fully opaque the pasted pixel replaces the old one.  Here the mask is
    the pasted image itself. *)

Class PixelModel : Type := {
  pixel : Type;
  (* alpha = 255 *)
  opaque : pixel -> bool;
  (* alpha = 0 *)
  clear : pixel -> bool;
  (* [over old new]: what pasting [new] with its own alpha leaves on [old] *)
  over : pixel -> pixel -> pixel;
  over_opaque : forall old new, opaque new = true -> over old new = new;
  over_clear : forall old new, clear new = true -> over old new = old
}.

Section Pixels.

Context `{PixelModel}.

(** The pixels of the two sprite sheets. *)
Variable sheet_px : Sheet -> Z * Z -> pixel.

(** The pixel of a sprite at [(u, v)], counted from its upper left corner. *)
Definition sprite_px (img : Sprite) (uv : Z * Z) : pixel :=
  let '(x0, y0, _, _) := box img in
  sheet_px (sheet img) (x0 + fst uv, y0 + snd uv).

(** Whether the sprite pasted at [at_] covers the point [p]. *)
Definition covers (img : Sprite) (at_ p : Z * Z) : bool :=
  (fst at_ <=? fst p) && (fst p <? fst at_ + sprite_width img) &&
  (snd at_ <=? snd p) && (snd p <? snd at_ + sprite_height img).

(** One paste, seen from the point [p]. *)
Definition paste_px (ip : Sprite * (Z * Z)) (f : Z * Z -> pixel) (p : Z * Z) : pixel :=
  let '(img, at_) := ip in
  if covers img at_ p
  then over (f p) (sprite_px img (fst p - fst at_, snd p - snd at_))
  else f p.

(** A sequence of pastes, oldest first, on the background [f]. *)
Definition composite (ps : list (Sprite * (Z * Z))) (f : Z * Z -> pixel)
    : Z * Z -> pixel :=
  fold_left (fun f ip => paste_px ip f) ps f.

(** The paste covers [p] with a fully opaque pixel. *)
Definition opaque_at (p : Z * Z) (ip : Sprite * (Z * Z)) : bool :=
  covers (fst ip) (snd ip) p &&
  opaque (sprite_px (fst ip) (fst p - fst (snd ip), snd p - snd (snd ip))).

(** The paste leaves [p] as it was: it does not cover it, or covers it
    with a fully transparent pixel. *)
Definition clear_at (p : Z * Z) (ip : Sprite * (Z * Z)) : bool :=
  negb (covers (fst ip) (snd ip) p) ||
  clear (sprite_px (fst ip) (fst p - fst (snd ip), snd p - snd (snd ip))).

End Pixels.

(** Eight-bit RGBA pixels, one instance of the model.  Pillow blends each
    of the four channels of the old and the new pixel with the alpha of
    the new pixel as the mask, dividing by 255 with one rounding. *)
Definition div255 (a : Z) : Z :=
  let tmp := a + 128 in
  Z.shiftr (Z.shiftr tmp 8 + tmp) 8.

Definition blend8 (mask in1 in2 : Z) : Z :=
  div255 (in1 * (255 - mask) + in2 * mask).

(** On channels between 0 and 255 the blend gives the new pixel for the
    mask 255 and the old pixel for the mask 0 by itself; the two cases are
    written out for channels of any value. *)
Definition rgba_over (old new : Z * Z * Z * Z) : Z * Z * Z * Z :=
  let '(r0, g0, b0, a0) := old in
  let '(r1, g1, b1, a1) := new in
  if a1 =? 255 then new
  else if a1 =? 0 then old
  else (blend8 a1 r0 r1, blend8 a1 g0 g1, blend8 a1 b0 b1, blend8 a1 a0 a1).

#[global] Program Instance rgba8 : PixelModel := {|
  pixel := Z * Z * Z * Z;
  opaque := fun px => snd px =? 255;
  clear := fun px => snd px =? 0;
  over := rgba_over
|}.
Next Obligation.
  intros [[[r0 g0] b0] a0] [[[r1 g1] b1] a1] Ha. simpl in *.
  unfold rgba_over. now rewrite Ha.
Qed.
Next Obligation.
  intros [[[r0 g0] b0] a0] [[[r1 g1] b1] a1] Ha. simpl in *.
  unfold rgba_over. apply Z.eqb_eq in Ha. subst a1. reflexivity.
Qed.

(** ** Reference readings

    What the text of the table format says, for comparison with the
    parser. *)

(** The translation [space_abbr] applies once the question mark is gone. *)
Definition translate (s : string) : option string :=
  if String.eqb s "nil" then None
  else if String.eqb s "" then Some "gap"
  else Some s.

(** The lines of the board section, as [load_table] reaches them. *)
Definition headline_of (text : string) : string :=
  hd "" (tl (skip_comments (Py.readlines text))).

Definition board_lines (text : string) : list string :=
  tl (tl (skip_comments (Py.readlines text))).

(** The (spaces line, tokens line) pairs the board loop reads. *)
Fixpoint row_lines (infile : list string) : list (string * string) :=
  match infile with
  | [] => []
  | spaces_arr :: infile1 =>
      if blank spaces_arr then []
      else
        match infile1 with
        | [] => [(spaces_arr, "")]
        | tokens_arr :: infile2 =>
            (spaces_arr, tokens_arr) ::
            match infile2 with
            | [] => []
            | _ :: infile3 => row_lines infile3
            end
        end
  end.

(** The number of cells of a board line: one less than its bars. *)
Definition cell_count (line : string) : Z := Z.max 0 (Py.count "|" line - 1).

(** Each directive line with its own handler and its own arguments. *)
Fixpoint directive_lines (infile : list string)
    : result (list (Directive * list string)) :=
  match infile with
  | [] => Ok []
  | curr :: rest =>
      if blank curr then Ok []
      else
        let data := Py.words curr in
        key ← or_raise IndexError (head data);
        fn ← or_raise (KeyError key) (DIRECTIVES !! key);
        ds ← directive_lines rest;
        Ok ((fn, tl data) :: ds)
  end.

(** Applying each directive with its own arguments, in file order. *)
Definition run_directive_lines (ds : list (Directive * list string))
    (res : Canvas) : result Canvas :=
  for_each (fun d image => apply_fn (fst d) image (snd d)) ds res.

(** The version line as the format describes it: the first line that does
    not start with [#]. *)
Fixpoint version_line (infile : list string) : string :=
  match infile with
  | [] => ""
  | line :: rest =>
      if Py.startswith "#" line then version_line rest else line
  end.

(** ** Statements and examples

    The predicates the theorems are stated with, and the boards,
    dictionaries and files they are tried on. *)

(** The outline [highlight] draws around the box from [(x0, y0)] to
    [(x1, y1)]. *)
Definition outline (x0 y0 x1 y1 : Z) : DrawOp :=
  Line [(x0, y0); (x0, y1); (x1, y1); (x1, y0); (x0, y0)] "red" 4.


(** Whether a dictionary holds an image for an identifier. *)
Definition resolvable (d : gmap string SpriteEntry) (id : string) : Prop :=
  exists entry xy, d !! id = Some entry /\ thumbnail entry = Some xy.

(** A small dictionary: two space tiles, one item, one token. *)
Definition dict0 : Dictionary :=
  {| d_spaces := {[ "a" := mkSpaceEntry (Some "0,0,32,32");
                    "gap" := mkSpaceEntry (Some "32,0,64,32") ]};
     d_items := {[ "sword" := mkSpriteEntry (Some (16, 0)) (Some (2, 1)) ]};
     d_tokens := {[ "knight" := mkSpriteEntry (Some (0, 0)) None ]} |}.

(** The entry of the token list for the ref [r] in the cell of column [x]
    and row [y]. *)
Definition token_obj (r : Ref) (y x : Z) : TokenObj :=
  {| object := if String.eqb (name r) "item" then item r else name r;
     position := (x * 32 + fst (pos r), y * 32 + snd (pos r)) |}.

(** The entry of the spaces array for a cell. *)
Definition cell_name (elem : Space) : string := Py.str_or (space elem) "gap".

(** Every ref code of the table is a key of the ref table. *)
Definition codes_resolve (rt : gmap string Ref) (table : list (list Space)) : Prop :=
  Forall (Forall (fun elem => Forall (fun code => is_Some (rt !! code)) (refs elem))) table.

(** A board of two rows and three columns with one ref, in the cell of
    column 2 and row 1, and one cell without identifier. *)
Definition json_table : list (list Space) :=
  [ [Space_init "a" []; Space_init "b" []; Space_init "c" []];
    [Space_init "d" []; Space_init "nil" []; Space_init "e" ["t"]] ].

(** Its ref table. *)
Definition json_refs : gmap string Ref :=
  {[ "t" := mkRef "knight" "nil" (3, 4) ]}.

(** A file whose header has two plus signs and whose row has two cells. *)
Definition narrow_header : string :=
"# board

1
+---+
| a | b |
|   |   |
+---+
".

(** A file of two rows and two columns with two refs. *)
Definition two_columns : string :=
"# board

1
+---+---+
| a |b? |
| t |   |
+---+---+
|   |nil|
|   | tu|
+---+---+

t knight nil 3 4
u item sword 0 0
".

(** What [load_table] returns for [two_columns]. *)
Definition two_columns_table : list (list Space) :=
  [ [Space_init "a" ["t"]; Space_init "b?" []];
    [Space_init "" []; Space_init "nil" ["t"; "u"]] ].

Definition two_columns_refs : gmap string Ref :=
  <["u" := mkRef "item" "sword" (0, 0)]>
    (<["t" := mkRef "knight" "nil" (3, 4)]> ∅).

(** [dirs] for a file without directive lines. *)
Definition no_dirs : Dirs := mkDirs [] (mkFrame None []).

(** A file whose first line after the comment says 2, the next one 1. *)
Definition version_two_then_one : string :=
"# board
2
1
+---+
| a |
|   |
+---+
".

(** A file whose first line after the comment says 1. *)
Definition version_one : string :=
"# board
1
+---+
| a |
|   |
+---+
".

(** A file with one cell, no ref and two directive lines. *)
Definition two_directives : string :=
"# board

1
+---+
|nil|
|   |
+---+


HIGHLIGHT ROW 0
HIGHLIGHT COLUMN 1
".

(** The lines of the directive section of [two_directives]. *)
Definition two_directives_section : list string :=
  skipn 9 (Py.readlines two_directives).

(** The empty dictionary. *)
Definition no_sprites : Dictionary := mkDictionary ∅ ∅ ∅.

(** A paste as a drawing call. *)
Definition to_op (ip : Sprite * (Z * Z)) : DrawOp := Paste (fst ip) (snd ip).

(** The call is a [draw.line]. *)
Definition is_line (op : DrawOp) : Prop :=
  match op with
  | Line _ _ _ => True
  | Paste _ _ => False
  end.

(** [s'] is [s] after some more pastes: those of [Q], all of them and no
    other. *)
Definition extends (Q : Sprite * (Z * Z) -> Prop) (s s' : Canvas) : Prop :=
  exists ps, log s' = log s ++ map to_op ps /\ size s' = size s /\
    forall ip, ip ∈ ps <-> Q ip.

(** The tile of a cell of layer [lyr], pasted at the corner of the cell. *)
Definition tile_of (dictionary : Dictionary) (table : list (list Space))
    (lyr : Z) (ip : Sprite * (Z * Z)) : Prop :=
  exists (y x : nat) row elem,
    table !! y = Some row /\ row !! x = Some elem /\
    layer elem = Some lyr /\
    Space_image dictionary elem SpacesPng = Ok (Some (fst ip)) /\
    snd ip = (Z.of_nat x * 32, Z.of_nat y * 32).

(** The image of a ref of a cell, pasted at its offset in the cell. *)
Definition token_of (dictionary : Dictionary) (rt : gmap string Ref)
    (table : list (list Space)) (ip : Sprite * (Z * Z)) : Prop :=
  exists (y x : nat) row elem code r,
    table !! y = Some row /\ row !! x = Some elem /\
    code ∈ refs elem /\ rt !! code = Some r /\
    Ref_image dictionary r TokensPng = Some (fst ip) /\
    snd ip = (Z.of_nat x * 32 + fst (pos r), Z.of_nat y * 32 + snd (pos r)).

(** [dirs] for the single directive line [HIGHLIGHT ROW 1]. *)
Definition row_one_dirs : Dirs :=
  mkDirs [Lambda_image] (mkFrame (Some fn_highlight) ["HIGHLIGHT"; "ROW"; "1"]).

(** The render of [two_columns_table] with [dict0] and [row_one_dirs]. *)
Definition two_columns_image : Canvas :=
  {| size := (64, 64);
     log := [ Paste (crop SpacesPng (32, 0, 64, 32)) (0, 32);
              Paste (crop SpacesPng (0, 0, 32, 32)) (0, 0);
              Paste (crop TokensPng (0, 0, 16, 16)) (3, 4);
              Paste (crop TokensPng (0, 0, 16, 16)) (35, 36);
              Paste (crop TokensPng (16, 0, 48, 16)) (32, 32);
              outline 0 32 64 64 ] |}.

(** The lines of a section: the lines before its first blank line. *)
Fixpoint section_lines (infile : list string) : list string :=
  match infile with
  | [] => []
  | line :: rest => if blank line then [] else line :: section_lines rest
  end.

(** What follows a section: the lines after its first blank line. *)
Fixpoint after_section (infile : list string) : list string :=
  match infile with
  | [] => []
  | line :: rest => if blank line then rest else after_section rest
  end.

(** A line of the ref section read on its own: the code and the ref. *)
Definition parse_ref (line : string) : option (string * Ref) :=
  match Py.words line with
  | [ref; name; item; x; y] =>
      match Py.int x, Py.int y with
      | Some x, Some y => Some (ref, mkRef name item (x, y))
      | _, _ => None
      end
  | _ => None
  end.

(** Storing the ref of a line under its code. *)
Definition store_ref (rt : gmap string Ref) (line : string) : gmap string Ref :=
  match parse_ref line with
  | Some (ref, r) => <[ref := r]> rt
  | None => rt
  end.

(** The keyword of a directive line is in the registry. *)
Definition known_directive (line : string) : Prop :=
  exists key f, head (Py.words line) = Some key /\ DIRECTIVES !! key = Some f.

(** Only blank characters. *)
Fixpoint allspace (s : string) : bool :=
  match s with
  | EmptyString => true
  | String a r => Py.isspace a && allspace r
  end.

(** The ref codes of a table, row by row and cell by cell. *)
Definition flat_refs (table : list (list Space)) : list string :=
  concat (map (fun row => concat (map refs row)) table).

(** The name a ref is exported under. *)
Definition display (r : Ref) : string :=
  if String.eqb (name r) "item" then item r else name r.

(** A visible cell with an identifier has its coordinates in the
    dictionary, as four integers. *)
Definition tile_known (dictionary : Dictionary) (elem : Space) : Prop :=
  forall id, space elem = Some id -> show elem = true ->
    exists entry cs x y w h,
      d_spaces dictionary !! id = Some entry /\ coords entry = Some cs /\
      ints (Py.split "," cs) = Ok [x; y; w; h] /\ x <= w /\ y <= h.

(** The ref codes of a row with the row and the column of their cell,
    from column [x] on, in the order the loops meet them. *)
Fixpoint placed_row (y x : Z) (row : list Space) : list (Z * Z * string) :=
  match row with
  | [] => []
  | elem :: rest =>
      map (fun code => (y, x, code)) (refs elem) ++ placed_row y (x + 1) rest
  end.

(** The same for the rows of a table, from row [y] on. *)
Fixpoint placed_from (y : Z) (table : list (list Space)) : list (Z * Z * string) :=
  match table with
  | [] => []
  | row :: rest => placed_row y 0 row ++ placed_from (y + 1) rest
  end.

(** The arguments [highlight] accepts. *)
Definition highlight_args (args : list string) : Prop :=
  exists rc num n,
    args = [rc; num] /\ Py.int num = Some n /\ (rc = "ROW" \/ rc = "COLUMN").

(** The directives of [dirs] can be carried out: there is none, or the
    shared frame holds a handler and arguments it accepts. *)
Definition dirs_runnable (dirs : Dirs) : Prop :=
  closures dirs = [] \/
  exists f, fn (frame dirs) = Some f /\ highlight_args (tl (data (frame dirs))).

(** The entry for a ref code placed at row [y] and column [x]. *)
Definition entry_of (rt : gmap string Ref) (p : Z * Z * string) (obj : TokenObj) : Prop :=
  exists r, rt !! snd p = Some r /\
    object obj = display r /\
    position obj = (snd (fst p) * 32 + fst (pos r), fst (fst p) * 32 + snd (pos r)).

(** No blank character. *)
Fixpoint nospace (s : string) : bool :=
  match s with
  | EmptyString => true
  | String a r => negb (Py.isspace a) && nospace r
  end.

(** A word as [str.split()] gives them: not empty, no blank character. *)
Definition is_word (s : string) : Prop := s <> "" /\ nospace s = true.

(** The lines of a run of board rows: for each row its spaces line, its
    tokens line and the separator line that follows. *)
Definition group_lines (groups : list (string * string * string)) : list string :=
  concat (map (fun g => [fst (fst g); snd (fst g); snd g]) groups).

(** A board as the format describes it: the header has a plus sign, and
    the spaces line and the tokens line of every row have as many bars as
    the header has plus signs. *)
Definition valid_board (text : string) : Prop :=
  1 <= Py.count "+" (headline_of text) /\
  Forall (fun st =>
            Py.count "|" (fst st) = Py.count "+" (headline_of text) /\
            Py.count "|" (snd st) = Py.count "+" (headline_of text))
         (row_lines (board_lines text)).

(** Two sheets to look at pixels with: space tiles of one opaque colour,
    and token images that are fully transparent, or of one opaque
    colour. *)
Definition clear_tokens (sh : Sheet) (xy : Z * Z) : Z * Z * Z * Z :=
  match sh with
  | SpacesPng => (200, 0, 0, 255)
  | TokensPng => (0, 0, 0, 0)
  end.

Definition painted_tokens (sh : Sheet) (xy : Z * Z) : Z * Z * Z * Z :=
  match sh with
  | SpacesPng => (200, 0, 0, 255)
  | TokensPng => (0, 0, 200, 255)
  end.

(** The pastes among the calls of a log, oldest first. *)
Fixpoint pastes_of (ops : list DrawOp) : list (Sprite * (Z * Z)) :=
  match ops with
  | [] => []
  | Paste img at_ :: rest => (img, at_) :: pastes_of rest
  | Line _ _ _ :: rest => pastes_of rest
  end.

(** * Verification *)

#[local] Arguments Image_crop : simpl never.
#[local] Arguments ImageDraw_line : simpl never.

Lemma ImageDraw_line_inv pts fill width image image' :
  ImageDraw_line pts fill width image = Ok image' ->
  image' = draw (Line pts fill width) image.
Proof.
  unfold ImageDraw_line. destruct (forallb _ pts); [|discriminate].
  now intros E; inversion E.
Qed.

Lemma ImageDraw_line_ok pts fill width image :
  Forall (fun p => c_double (fst p) = true /\ c_double (snd p) = true) pts ->
  ImageDraw_line pts fill width image = Ok (draw (Line pts fill width) image).
Proof.
  intros Hpts. unfold ImageDraw_line.
  replace (forallb _ pts) with true; [reflexivity|].
  symmetry. apply forallb_forall. intros p Hp.
  rewrite Forall_forall in Hpts.
  destruct (Hpts p (proj2 (list_elem_of_In _ _) Hp)) as [-> ->]. reflexivity.
Qed.
#[local] Arguments paste : simpl never.

(** ** Strings *)

Lemma endswith_snoc (c : ascii) (s : string) :
  Py.endswith c (s +:+ String c "") = true.
Proof.
  induction s as [|a s IH]; simpl.
  - apply Ascii.eqb_refl.
  - destruct s; simpl in *; auto.
Qed.

Lemma drop_last_snoc (c : ascii) (s : string) :
  Py.drop_last (s +:+ String c "") = s.
Proof.
  induction s as [|a s IH]; simpl; [reflexivity|].
  destruct s; simpl in *; [reflexivity|]. now rewrite IH.
Qed.

(** ** Space cells *)

Lemma space_abbr_hidden (s : string) :
  space_abbr (s +:+ "?") = translate s.
Proof.
  unfold space_abbr. now rewrite endswith_snoc, drop_last_snoc.
Qed.

Lemma translate_ordinary (s : string) :
  s <> "" -> s <> "nil" -> translate s = Some s.
Proof.
  intros H1 H2. unfold translate.
  destruct (String.eqb_spec s "nil"); [contradiction|].
  destruct (String.eqb_spec s ""); [contradiction|]. reflexivity.
Qed.

(** C6: ["X?"] is the identifier ["X"], hidden, in layer 1, and so is
    every ordinary identifier followed by a question mark; the empty cell
    is a visible ["gap"] in layer 0; ["nil"] is a visible cell without
    identifier and without layer; every identifier other than ["gap"] is
    in layer 1. *)
Theorem space_normalization :
  (forall rs, Space_init "X?" rs = mkSpace (Some "X") rs false /\
              layer (Space_init "X?" rs) = Some 1) /\
  (forall X rs, X <> "" -> X <> "nil" ->
     Space_init (X +:+ "?") rs = mkSpace (Some X) rs false /\
     (X <> "gap" -> layer (Space_init (X +:+ "?") rs) = Some 1)) /\
  (forall rs, Space_init "" rs = mkSpace (Some "gap") rs true /\
              layer (Space_init "" rs) = Some 0) /\
  (forall rs, Space_init "nil" rs = mkSpace None rs true /\
              layer (Space_init "nil" rs) = None) /\
  (forall id, id <> "gap" -> space_layer (Some id) = Some 1) /\
  space_layer (Some "gap") = Some 0 /\
  space_layer None = None.
Proof.
  assert (L : forall id, id <> "gap" -> space_layer (Some id) = Some 1).
  { intros id Hid. simpl. now destruct (String.eqb_spec id "gap"). }
  repeat split; try reflexivity; auto.
  - unfold Space_init.
    now rewrite space_abbr_hidden, endswith_snoc, translate_ordinary.
  - intros Hgap. unfold layer, Space_init; simpl.
    rewrite space_abbr_hidden, translate_ordinary by assumption. now apply L.
Qed.

Lemma space_normalization_witness :
  Space_init ("lava" +:+ "?") ["t"] = mkSpace (Some "lava") ["t"] false /\
  layer (Space_init ("lava" +:+ "?") ["t"]) = Some 1 /\
  space_layer (Some "lava") = Some 1.
Proof.
  destruct space_normalization as (_ & Hx & _ & _ & Hl & _).
  destruct (Hx "lava" ["t"]) as [H1 H2]; [discriminate | discriminate |].
  split; [exact H1|]. split; [apply H2; discriminate|].
  apply Hl. discriminate.
Defined.

(** C10: the question mark is taken off before ["nil"] and the empty
    string are translated, and visibility looks at the raw text: ["?"] is
    a hidden gap and ["nil?"] is a hidden cell without identifier. *)
Theorem space_hidden_translation :
  (forall X rs, space (Space_init (X +:+ "?") rs) = translate X /\
                show (Space_init (X +:+ "?") rs) = false) /\
  (forall raw rs, show (Space_init raw rs) = negb (Py.endswith "?" raw)) /\
  (forall rs, Space_init "?" rs = mkSpace (Some "gap") rs false) /\
  (forall rs, Space_init "nil?" rs = mkSpace None rs false).
Proof.
  repeat split.
  - apply space_abbr_hidden.
  - simpl. now rewrite endswith_snoc.
Qed.

(** ** The highlight directive *)

(** C9: [HIGHLIGHT ROW n] leaves the image with its size and with one
    more call at the end of its log: a red line of width 4 that goes
    through the corners of the box [0 <= x <= width],
    [32 n <= y <= 32 (n + 1)] and comes back to the corner it started
    from.  [HIGHLIGHT COLUMN n] does so for the box
    [32 n <= x <= 32 (n + 1)], [0 <= y <= height].  For row 1 the box
    spans [y = 32 .. 64] over the width of the image.  The coordinates are
    taken to be numbers [ImageDraw] can read. *)
Theorem highlight_outline (image : Canvas) (num : string) (n : Z) :
  Py.int num = Some n ->
  c_double (32 * n) = true -> c_double (32 * (n + 1)) = true ->
  c_double (fst (size image)) = true -> c_double (snd (size image)) = true ->
  (exists image',
     highlight image ["ROW"; num] = Ok image' /\
     size image' = size image /\
     log image' =
       log image ++
       [Line [(0, 32 * n); (0, 32 * (n + 1));
              (fst (size image), 32 * (n + 1)); (fst (size image), 32 * n);
              (0, 32 * n)] "red" 4]) /\
  (exists image',
     highlight image ["COLUMN"; num] = Ok image' /\
     size image' = size image /\
     log image' =
       log image ++
       [Line [(32 * n, 0); (32 * n, snd (size image));
              (32 * (n + 1), snd (size image)); (32 * (n + 1), 0);
              (32 * n, 0)] "red" 4]) /\
  (exists image',
     highlight image ["ROW"; "1"] = Ok image' /\
     size image' = size image /\
     log image' =
       log image ++
       [Line [(0, 32); (0, 64); (fst (size image), 64);
              (fst (size image), 32); (0, 32)] "red" 4]).
Proof.
  intros Hn Hlo Hhi Hw Hh.
  assert (H0 : c_double 0 = true) by reflexivity.
  split; [|split].
  - unfold highlight. rewrite Hn. simpl. unfold HEIGHT.
    rewrite ImageDraw_line_ok by (repeat constructor; assumption).
    eexists. split; [reflexivity|]. split; reflexivity.
  - unfold highlight. rewrite Hn. simpl. unfold WIDTH.
    rewrite ImageDraw_line_ok by (repeat constructor; assumption).
    eexists. split; [reflexivity|]. split; reflexivity.
  - unfold highlight.
    replace (Py.int "1") with (Some 1) by (vm_compute; reflexivity).
    simpl. unfold HEIGHT.
    rewrite ImageDraw_line_ok
      by (repeat constructor; try assumption; reflexivity).
    eexists. split; [reflexivity|]. split; reflexivity.
Qed.

Lemma highlight_outline_witness :
  (exists image',
     highlight (Image_new (96, 64)) ["ROW"; "1"] = Ok image' /\
     size image' = (96, 64) /\
     log image' = [Line [(0, 32); (0, 64); (96, 64); (96, 32); (0, 32)] "red" 4]) /\
  (exists image',
     highlight (Image_new (96, 64)) ["COLUMN"; "1"] = Ok image' /\
     size image' = (96, 64) /\
     log image' = [Line [(32, 0); (32, 64); (64, 64); (64, 0); (32, 0)] "red" 4]).
Proof.
  destruct (highlight_outline (Image_new (96, 64)) "1" 1
              ltac:(vm_compute; reflexivity) eq_refl eq_refl eq_refl eq_refl)
    as (Hr & Hc & _).
  split; [exact Hr | exact Hc].
Defined.

(** ** Token and item images *)


Lemma Ref__image_None tokens d id :
  ~ resolvable d id -> Ref__image tokens d id = None.
Proof.
  intros Hn. unfold Ref__image.
  destruct (d !! id) as [entry|] eqn:Hd; [|reflexivity].
  destruct (thumbnail entry) as [xy|] eqn:Ht; [|reflexivity].
  exfalso. apply Hn. now exists entry, xy.
Qed.




(** ** The JSON export *)

#[local] Arguments json_ref : simpl never.
#[local] Arguments json_cell : simpl never.
#[local] Arguments json_row : simpl never.

Lemma json_ref_ok rt y x code r (tokens : list TokenObj) :
  rt !! code = Some r ->
  json_ref rt y x code tokens = Ok (tokens ++ [token_obj r y x]).
Proof.
  intros Hr. unfold json_ref. rewrite Hr. now destruct r as [nm it [dx dy]].
Qed.

Lemma json_ref_inv rt y x code (tokens tokens' : list TokenObj) :
  json_ref rt y x code tokens = Ok tokens' ->
  exists r, rt !! code = Some r /\ tokens' = tokens ++ [token_obj r y x].
Proof.
  unfold json_ref. destruct (rt !! code) as [r|]; simpl; [|discriminate].
  destruct r as [nm it [dx dy]]; simpl. intros E; inversion E.
  now exists (mkRef nm it (dx, dy)).
Qed.

Lemma json_refs_inv rt y x codes : forall (tokens tokens' : list TokenObj),
  for_each (json_ref rt y x) codes tokens = Ok tokens' ->
  exists more, tokens' = tokens ++ more /\
    forall k code r, codes !! k = Some code -> rt !! code = Some r ->
      token_obj r y x ∈ more.
Proof.
  induction codes as [|c codes IH]; simpl; intros tokens tokens' E.
  - inversion E. exists []. split; [now rewrite app_nil_r|].
    intros k code r Hk. now rewrite lookup_nil in Hk.
  - destruct (json_ref rt y x c tokens) as [t1|] eqn:E1; simpl in E; [|discriminate].
    destruct (json_ref_inv _ _ _ _ _ _ E1) as (r1 & Hr1 & ->).
    destruct (IH _ _ E) as (more & -> & Hmore).
    exists (token_obj r1 y x :: more). split; [now rewrite <- app_assoc|].
    intros [|k] code r Hk Hr; simpl in Hk.
    + inversion Hk; subst code. rewrite Hr1 in Hr. inversion Hr. apply list_elem_of_here.
    + apply list_elem_of_further. eauto.
Qed.

Lemma json_refs_ok rt y x codes : forall tokens : list TokenObj,
  Forall (fun code => is_Some (rt !! code)) codes ->
  exists tokens', for_each (json_ref rt y x) codes tokens = Ok tokens'.
Proof.
  induction codes as [|c codes IH]; simpl; intros tokens Hall.
  - now exists tokens.
  - inversion Hall as [|? ? [r Hr] Hrest]; subst.
    rewrite (json_ref_ok _ _ _ _ _ _ Hr). simpl. now apply IH.
Qed.

Lemma json_cell_inv rt y x elem (curr curr' : list string)
    (tokens tokens' : list TokenObj) :
  json_cell rt y x elem (curr, tokens) = Ok (curr', tokens') ->
  curr' = curr ++ [cell_name elem] /\
  exists more, tokens' = tokens ++ more /\
    forall k code r, refs elem !! k = Some code -> rt !! code = Some r ->
      token_obj r y x ∈ more.
Proof.
  unfold json_cell.
  destruct (for_each (json_ref rt y x) (refs elem) tokens) as [t|] eqn:E;
    simpl; [|discriminate].
  intros E'; inversion E'; subst. split; [reflexivity|].
  now apply json_refs_inv.
Qed.

Lemma json_cells_inv rt y row : forall x0 (curr curr' : list string)
    (tokens tokens' : list TokenObj),
  for_enumerate (json_cell rt y) x0 row (curr, tokens) = Ok (curr', tokens') ->
  curr' = curr ++ map cell_name row /\
  exists more, tokens' = tokens ++ more /\
    forall (i : nat) elem k code r,
      row !! i = Some elem -> refs elem !! k = Some code ->
      rt !! code = Some r ->
      token_obj r y (x0 + Z.of_nat i) ∈ more.
Proof.
  induction row as [|e row IH]; simpl; intros x0 curr curr' tokens tokens' E.
  - inversion E; subst. split; [now rewrite app_nil_r|].
    exists []. split; [now rewrite app_nil_r|].
    intros i elem k code r Hi. now rewrite lookup_nil in Hi.
  - destruct (json_cell rt y x0 e (curr, tokens)) as [[c1 t1]|] eqn:E1;
      simpl in E; [|discriminate].
    destruct (json_cell_inv _ _ _ _ _ _ _ _ E1) as (-> & m1 & -> & Hm1).
    destruct (IH _ _ _ _ _ E) as (-> & m2 & -> & Hm2).
    split; [now rewrite <- app_assoc|].
    exists (m1 ++ m2). split; [now rewrite app_assoc|].
    intros [|i] elem k code r Hi Hk Hr; simpl in Hi; apply elem_of_app.
    + left. inversion Hi; subst elem. rewrite Z.add_0_r. eauto.
    + right. replace (x0 + Z.of_nat (S i)) with (x0 + 1 + Z.of_nat i) by lia.
      eauto.
Qed.

Lemma json_row_inv rt y row (spaces spaces' : list (list string))
    (tokens tokens' : list TokenObj) :
  json_row rt y row (spaces, tokens) = Ok (spaces', tokens') ->
  spaces' = spaces ++ [map cell_name row] /\
  exists more, tokens' = tokens ++ more /\
    forall (i : nat) elem k code r,
      row !! i = Some elem -> refs elem !! k = Some code ->
      rt !! code = Some r ->
      token_obj r y (Z.of_nat i) ∈ more.
Proof.
  unfold json_row.
  destruct (for_enumerate (json_cell rt y) 0 row ([], tokens))
    as [[c t]|] eqn:E; simpl; [|discriminate].
  intros E'; inversion E'; subst.
  destruct (json_cells_inv _ _ _ _ _ _ _ _ E) as (-> & more & -> & Hm).
  split; [reflexivity|]. exists more. split; [reflexivity|].
  intros i elem k code r Hi Hk Hr. apply (Hm i elem k code r Hi Hk Hr).
Qed.

Lemma json_rows_inv rt table : forall y0 (spaces spaces' : list (list string))
    (tokens tokens' : list TokenObj),
  for_enumerate (json_row rt) y0 table (spaces, tokens) = Ok (spaces', tokens') ->
  spaces' = spaces ++ map (map cell_name) table /\
  exists more, tokens' = tokens ++ more /\
    forall (j i : nat) row elem k code r,
      table !! j = Some row -> row !! i = Some elem ->
      refs elem !! k = Some code -> rt !! code = Some r ->
      token_obj r (y0 + Z.of_nat j) (Z.of_nat i) ∈ more.
Proof.
  induction table as [|row0 table IH]; simpl;
    intros y0 spaces spaces' tokens tokens' E.
  - inversion E; subst. split; [now rewrite app_nil_r|].
    exists []. split; [now rewrite app_nil_r|].
    intros j i row elem k code r Hj. now rewrite lookup_nil in Hj.
  - destruct (json_row rt y0 row0 (spaces, tokens)) as [[s1 t1]|] eqn:E1;
      simpl in E; [|discriminate].
    destruct (json_row_inv _ _ _ _ _ _ _ E1) as (-> & m1 & -> & Hm1).
    destruct (IH _ _ _ _ _ E) as (-> & m2 & -> & Hm2).
    split; [now rewrite <- app_assoc|].
    exists (m1 ++ m2). split; [now rewrite app_assoc|].
    intros [|j] i row elem k code r Hj Hi Hk Hr; simpl in Hj; apply elem_of_app.
    + left. inversion Hj; subst row. rewrite Z.add_0_r. eauto.
    + right. replace (y0 + Z.of_nat (S j)) with (y0 + 1 + Z.of_nat j) by lia.
      eauto.
Qed.

Lemma json_cells_ok rt y row : forall x0 (st : list string * list TokenObj),
  Forall (fun elem => Forall (fun code => is_Some (rt !! code)) (refs elem)) row ->
  exists st', for_enumerate (json_cell rt y) x0 row st = Ok st'.
Proof.
  induction row as [|e row IH]; simpl; intros x0 [curr tokens] Hall.
  - eauto.
  - inversion Hall as [|? ? He Hrow]; subst.
    destruct (json_refs_ok rt y x0 (refs e) tokens He) as [t Ht].
    assert (E : json_cell rt y x0 e (curr, tokens) = Ok (curr ++ [cell_name e], t)).
    { unfold json_cell. now rewrite Ht. }
    rewrite E. simpl. now apply IH.
Qed.

Lemma json_rows_ok rt table :
  forall y0 (st : list (list string) * list TokenObj),
  codes_resolve rt table ->
  exists st', for_enumerate (json_row rt) y0 table st = Ok st'.
Proof.
  induction table as [|row table IH]; simpl; intros y0 [spaces tokens] Hall.
  - eauto.
  - inversion Hall as [|? ? Hrow Htable]; subst.
    destruct (json_cells_ok rt y0 row 0 ([], tokens) Hrow) as [[c t] Ht].
    assert (E : json_row rt y0 row (spaces, tokens) = Ok (spaces ++ [c], t)).
    { unfold json_row. now rewrite Ht. }
    rewrite E. simpl. now apply IH.
Qed.

(** C8: the export succeeds when every ref code of the grid is in the ref
    table; every ref of offset [(dx, dy)] in the cell of column [col] and
    row [row] then has an entry of position
    [(col * 32 + dx, row * 32 + dy)] in the token list, and a cell without
    identifier is the string ["gap"] in the array of spaces. *)
Theorem render_json_export (table : list (list Space)) (rt : gmap string Ref) :
  (codes_resolve rt table -> exists data, render_json table rt = Ok data) /\
  (forall data, render_json table rt = Ok data ->
     exists board, data = {[ "0" := board ]} /\
       b_spaces board = map (map cell_name) table /\
       (forall (row col : nat) cells elem k code r,
          table !! row = Some cells -> cells !! col = Some elem ->
          refs elem !! k = Some code -> rt !! code = Some r ->
          {| object := if String.eqb (name r) "item" then item r else name r;
             position := (Z.of_nat col * 32 + fst (pos r),
                          Z.of_nat row * 32 + snd (pos r)) |}
            ∈ b_tokens board) /\
       (forall (row col : nat) cells elem,
          table !! row = Some cells -> cells !! col = Some elem ->
          space elem = None ->
          exists names, b_spaces board !! row = Some names /\
                        names !! col = Some "gap")).
Proof.
  split.
  - intros Hall. unfold render_json.
    destruct (json_rows_ok rt table 0 ([], []) Hall) as [[s t] E].
    rewrite E. simpl. eauto.
  - intros data E. unfold render_json in E.
    destruct (for_enumerate (json_row rt) 0 table ([], [])) as [[s t]|] eqn:E1;
      simpl in E; [|discriminate].
    inversion E; subst data. clear E.
    destruct (json_rows_inv _ _ _ _ _ _ _ E1) as (-> & more & -> & Hm).
    eexists. split; [reflexivity|]. simpl. repeat split.
    + intros row col cells elem k code r Hrow Hcol Hk Hr.
      apply (Hm row col cells elem k code r Hrow Hcol Hk Hr).
    + intros row col cells elem Hrow Hcol Hs.
      exists (map cell_name cells). split.
      * now rewrite list_lookup_fmap, Hrow.
      * rewrite list_lookup_fmap, Hcol. simpl. unfold cell_name. now rewrite Hs.
Qed.

Lemma render_json_export_witness :
  exists data board,
    render_json json_table json_refs = Ok data /\
    data = {[ "0" := board ]} /\
    {| object := "knight"; position := (2 * 32 + 3, 1 * 32 + 4) |}
      ∈ b_tokens board /\
    exists names, b_spaces board !! 1%nat = Some names /\
                  names !! 1%nat = Some "gap".
Proof.
  destruct (render_json_export json_table json_refs) as [Hok Hex].
  destruct Hok as [data E].
  { repeat constructor. now exists (mkRef "knight" "nil" (3, 4)). }
  destruct (Hex data E) as (board & Hd & _ & Ht & Hg).
  exists data, board. split; [exact E|]. split; [exact Hd|]. split.
  - apply (Ht 1%nat 2%nat
             [Space_init "d" []; Space_init "nil" []; Space_init "e" ["t"]]
             (Space_init "e" ["t"]) 0%nat "t" (mkRef "knight" "nil" (3, 4)));
      reflexivity.
  - apply (Hg 1%nat 1%nat
             [Space_init "d" []; Space_init "nil" []; Space_init "e" ["t"]]
             (Space_init "nil" [])); reflexivity.
Defined.

(** ** The width of the grid *)

Lemma count_nonneg (c : ascii) (s : string) : 0 <= Py.count c s.
Proof.
  induction s as [|a s IH]; simpl; [lia|].
  destruct (Ascii.eqb a c); lia.
Qed.

Lemma split_length (c : ascii) (s : string) :
  Z.of_nat (length (Py.split c s)) = Py.count c s + 1.
Proof.
  induction s as [|a s IH]; simpl; [reflexivity|].
  pose proof (count_nonneg c s).
  destruct (Ascii.eqb a c); simpl.
  - lia.
  - destruct (Py.split c s) as [|w ws]; simpl in *; lia.
Qed.

Lemma removelast_length {A} (l : list A) :
  length (removelast l) = pred (length l).
Proof.
  induction l as [|a l IH]; simpl; [reflexivity|].
  destruct l; simpl in *; [reflexivity|]. now rewrite IH.
Qed.

Lemma slice_1_m1_length {A} (l : list A) :
  length (Py.slice_1_m1 l) = (length l - 2)%nat.
Proof.
  unfold Py.slice_1_m1. rewrite removelast_length.
  destruct l; simpl; lia.
Qed.

Lemma cells_length (line : string) :
  Z.of_nat (length (cells line)) = cell_count line.
Proof.
  unfold cells, cell_count.
  rewrite length_map, slice_1_m1_length.
  pose proof (split_length "|" line). pose proof (count_nonneg "|" line). lia.
Qed.

Lemma read_row_length (spaces_arr tokens_arr : string) :
  Z.of_nat (length (read_row spaces_arr tokens_arr)) =
  Z.min (cell_count spaces_arr) (cell_count tokens_arr).
Proof.
  unfold read_row. rewrite length_map, length_zip.
  rewrite <- !cells_length. lia.
Qed.

Lemma read_board_rows_upto (n : nat) : forall infile : list string,
  (length infile <= n)%nat ->
  fst (read_board infile) =
  map (fun st => read_row (fst st) (snd st)) (row_lines infile).
Proof.
  induction n as [|n IH]; intros infile Hlen.
  - destruct infile; [reflexivity | simpl in Hlen; lia].
  - destruct infile as [|l1 [|l2 [|l3 rest]]]; simpl; try reflexivity;
      destruct (blank l1); simpl; try reflexivity.
    specialize (IH rest). destruct (read_board rest) as [t r]. simpl in *.
    f_equal. apply IH. lia.
Qed.

Lemma read_board_rows (infile : list string) :
  fst (read_board infile) =
  map (fun st => read_row (fst st) (snd st)) (row_lines infile).
Proof. now apply (read_board_rows_upto (length infile)). Qed.

Lemma forallb_same_length (row : list Space) (rest : list (list Space)) :
  forallb (fun r => Nat.eqb (length r) (length row)) rest = true ->
  Forall (fun r : list Space => length r = length row) rest.
Proof.
  induction rest as [|r rest IH]; simpl; intros Hall; [constructor|].
  apply andb_true_iff in Hall. destruct Hall as [Hr Hrest].
  apply Nat.eqb_eq in Hr. constructor; auto.
Qed.

Lemma np_array_inv (table t : list (list Space)) :
  np_array table = Ok t ->
  t = table /\ exists w : nat, Forall (fun row : list Space => length row = w) table.
Proof.
  unfold np_array. destruct table as [|row rest].
  - intros E; inversion E. split; [reflexivity|]. exists 0%nat. constructor.
  - destruct (forallb _ rest) eqn:Hall; [|discriminate].
    intros E; inversion E. split; [reflexivity|]. exists (length row).
    constructor; [reflexivity|]. now apply forallb_same_length.
Qed.

Lemma load_table_board (text : string) table rt dirs :
  load_table text = Ok (table, rt, dirs) ->
  table = fst (read_board (board_lines text)).
Proof.
  unfold load_table, board_lines.
  destruct (Py.int _) as [version|]; simpl; [|discriminate].
  destruct (version =? 1); simpl; [|discriminate].
  destruct (read_board _) as [t rest]; simpl.
  destruct (read_refs ∅ rest) as [[r rest']|]; simpl; [|discriminate].
  destruct (read_dirs _ _ rest') as [d|]; simpl; [|discriminate].
  destruct (np_array t) as [t'|] eqn:Ht; simpl; [|discriminate].
  apply np_array_inv in Ht. destruct Ht as [-> _].
  now intros E; inversion E.
Qed.

Lemma load_table_rectangular (text : string) table rt dirs :
  load_table text = Ok (table, rt, dirs) ->
  exists w : nat, Forall (fun row : list Space => length row = w) table.
Proof.
  unfold load_table.
  destruct (Py.int _) as [version|]; simpl; [|discriminate].
  destruct (version =? 1); simpl; [|discriminate].
  destruct (read_board _) as [t rest]; simpl.
  destruct (read_refs ∅ rest) as [[r rest']|]; simpl; [|discriminate].
  destruct (read_dirs _ _ rest') as [d|]; simpl; [|discriminate].
  destruct (np_array t) as [t'|] eqn:Ht; simpl; [|discriminate].
  apply np_array_inv in Ht. destruct Ht as [-> Hw].
  now intros E; inversion E; subst.
Qed.

(** C1: the grid of an accepted file is rectangular, all its rows having
    one length; a row is as long as the shorter of its two lines, counted
    in cells (one less than the bars of the line); and for a valid file,
    where the header has a plus sign and both lines of every row have as
    many bars as the header has plus signs, the length of every row is
    the number of plus signs of the header minus one. *)
Theorem grid_row_lengths (text : string) table rt dirs :
  load_table text = Ok (table, rt, dirs) ->
  (exists w : nat, Forall (fun row : list Space => length row = w) table) /\
  Forall2 (fun row st =>
             Z.of_nat (length row) =
             Z.min (cell_count (fst st)) (cell_count (snd st)))
          table (row_lines (board_lines text)) /\
  (valid_board text ->
   Forall (fun row : list Space =>
             Z.of_nat (length row) = Py.count "+" (headline_of text) - 1)
          table).
Proof.
  intros E. split; [apply (load_table_rectangular _ _ _ _ E)|].
  apply load_table_board in E. subst table.
  rewrite read_board_rows. unfold valid_board.
  generalize (row_lines (board_lines text)) as rows. intros rows. split.
  - induction rows as [|st rows IH]; simpl; constructor; auto.
    apply read_row_length.
  - intros [Hw Hall]. induction Hall as [|st rows [Hs Ht] _ IH]; simpl;
      constructor; auto.
    rewrite read_row_length. unfold cell_count. rewrite Hs, Ht. lia.
Qed.

(** The width read from the header is not compared with the rows: a file
    whose header has two plus signs and whose row has two cells is
    accepted.  Such a file is not a valid board. *)
Lemma narrow_header_accepted :
  exists table rt dirs,
    load_table narrow_header = Ok (table, rt, dirs) /\
    map length table = [2%nat] /\
    Py.count "+" (headline_of narrow_header) - 1 = 1.
Proof.
  vm_compute. do 3 eexists. repeat split.
Qed.

Lemma grid_row_lengths_witness :
  valid_board two_columns /\
  Forall (fun row : list Space => Z.of_nat (length row) = 2) two_columns_table.
Proof.
  assert (V : valid_board two_columns).
  { split; [vm_compute; discriminate | vm_compute; repeat constructor]. }
  split; [exact V|].
  apply (proj2 (proj2 (grid_row_lengths two_columns two_columns_table
                  two_columns_refs no_dirs ltac:(vm_compute; reflexivity)))).
  exact V.
Defined.

(** ** The version line *)

(** A version line that reads as an integer other than 1 ends [load_table]
    with an exception, and the program produces no output in either mode.
    The exception is the [NameError] of [StandardError], a name Python 3
    does not have: it carries neither the message nor the version read. *)
Lemma load_table_version (text : string) (v : Z) :
  Py.int (hd "" (skip_comments (Py.readlines text))) = Some v ->
  v <> 1 ->
  load_table text = Err (NameError "StandardError") /\
  forall dictionary setting,
    main dictionary setting text = Err (NameError "StandardError").
Proof.
  intros Hv Hne.
  assert (E : load_table text = Err (NameError "StandardError")).
  { unfold load_table. rewrite Hv.
    cbn [or_raise mbind result_bind].
    destruct (Z.eqb_spec v 1); [contradiction | reflexivity]. }
  split; [exact E|]. intros dictionary setting. unfold main. now rewrite E.
Qed.

(** C4, on the code: the loop that skips the comments also reads the
    first line that is not a comment, so the version is taken from the
    line after it.  A file whose version line says 2, followed by a line
    saying 1, is accepted; a file whose version line says 1 is refused
    because the header line is not a number. *)
Theorem version_line_skipped :
  Py.int (version_line (Py.readlines version_two_then_one)) = Some 2 /\
  load_table version_two_then_one =
    Ok ([[Space_init "a" []]], ∅, no_dirs) /\
  Py.int (version_line (Py.readlines version_one)) = Some 1 /\
  load_table version_one = Err (ValueError "int").
Proof. split; [|split; [|split]]; vm_compute; reflexivity. Qed.

(** ** Directives *)

(** C2, on the code: every lambda of [dirs] reads [fn] and [data] when it
    is called, after the loop has ended, so each of them applies the last
    directive line.  With a [ROW 0] line followed by a [COLUMN 1] line the
    image gets the column outline twice and the row outline never;
    applying each line with its own arguments gives the row outline and
    then the column outline. *)
Theorem directives_share_last_line :
  exists table rt dirs img ds img',
    load_table two_directives = Ok (table, rt, dirs) /\
    closures dirs = [Lambda_image; Lambda_image] /\
    data (frame dirs) = ["HIGHLIGHT"; "COLUMN"; "1"] /\
    render_image no_sprites table rt dirs = Ok img /\
    log img = [outline 32 0 64 32; outline 32 0 64 32] /\
    directive_lines two_directives_section = Ok ds /\
    map snd ds = [["ROW"; "0"]; ["COLUMN"; "1"]] /\
    run_directive_lines ds (Image_new (32, 32)) = Ok img' /\
    log img' = [outline 0 0 32 32; outline 32 0 64 32].
Proof.
  exists [[Space_init "nil" []]], ∅,
    (mkDirs [Lambda_image; Lambda_image]
       (mkFrame (Some fn_highlight) ["HIGHLIGHT"; "COLUMN"; "1"])),
    (mkCanvas (32, 32) [outline 32 0 64 32; outline 32 0 64 32]),
    [(fn_highlight, ["ROW"; "0"]); (fn_highlight, ["COLUMN"; "1"])],
    (mkCanvas (32, 32) [outline 0 0 32 32; outline 32 0 64 32]).
  repeat split; vm_compute; reflexivity.
Qed.

Lemma for_each_ext {A S : Type} (f g : A -> S -> result S) (l : list A) :
  (forall a s, f a s = g a s) ->
  forall s, for_each f l s = for_each g l s.
Proof.
  intros Hfg. induction l as [|a l IH]; intros s; simpl; [reflexivity|].
  rewrite Hfg. destruct (g a s); simpl; auto.
Qed.

(** Whatever the directive lines are, all the lambdas make the same call. *)
Lemma run_dirs_uniform (dirs : Dirs) (f : Directive) (res : Canvas) :
  fn (frame dirs) = Some f ->
  run_dirs dirs res =
  for_each (fun _ image => apply_fn f image (tl (data (frame dirs))))
           (closures dirs) res.
Proof.
  intros Hf. unfold run_dirs. apply for_each_ext.
  intros [] image. unfold call. now rewrite Hf.
Qed.

(** ** Missing images *)

Lemma for_enumerate_fails {A St : Type} (body : Z -> A -> St -> result St)
    (l : list A) : forall (i0 : Z) (k : nat) (a : A) (s : St),
  l !! k = Some a ->
  (forall s, exists e, body (i0 + Z.of_nat k) a s = Err e) ->
  exists e, for_enumerate body i0 l s = Err e.
Proof.
  induction l as [|b l IH]; intros i0 k a s Hk Hbad.
  - now rewrite lookup_nil in Hk.
  - destruct k as [|k]; simpl in Hk |- *.
    + inversion Hk; subst b. destruct (Hbad s) as [e He].
      rewrite Z.add_0_r in He. rewrite He. simpl. eauto.
    + destruct (body i0 b s) as [s'|e]; simpl; [|eauto].
      apply (IH (i0 + 1) k a s' Hk). intros s0.
      replace (i0 + 1 + Z.of_nat k) with (i0 + Z.of_nat (S k)) by lia.
      apply Hbad.
Qed.

Lemma Space_image_missing dictionary elem spaces id :
  space elem = Some id -> show elem = true ->
  (d_spaces dictionary !! id = None ->
     Space_image dictionary elem spaces = Err (KeyError id)) /\
  (forall entry, d_spaces dictionary !! id = Some entry ->
     coords entry = None ->
     Space_image dictionary elem spaces = Err (KeyError "coords")).
Proof.
  intros Hs Hv. unfold Space_image. rewrite Hs, Hv. simpl. split.
  - intros Hd. now rewrite Hd.
  - intros entry Hd Hc. rewrite Hd. simpl. now rewrite Hc.
Qed.

Lemma Space_image_none dictionary elem spaces :
  Space_image dictionary elem spaces = Ok None <->
  space elem = None \/ show elem = false.
Proof.
  unfold Space_image. split.
  - destruct (space elem) as [id|]; [|auto].
    destruct (show elem); simpl; [|auto]. intros E. exfalso.
    destruct (d_spaces dictionary !! id) as [entry|]; simpl in E; [|discriminate].
    destruct (coords entry) as [cs|]; simpl in E; [|discriminate].
    destruct (ints (Py.split "," cs)) as [ns|]; simpl in E; [|discriminate].
    destruct ns as [|x [|y [|w [|h [|k ns]]]]]; try discriminate.
    simpl in E. destruct (Image_crop spaces (x, y, w, h)); simpl in E; discriminate.
  - intros [Hs|Hv].
    + now rewrite Hs.
    + rewrite Hv. now destruct (space elem).
Qed.

Lemma paste_space_missing dictionary lyr y x elem res id :
  space elem = Some id -> show elem = true -> layer elem = Some lyr ->
  (d_spaces dictionary !! id = None ->
     paste_space dictionary lyr y x elem res = Err (KeyError id)) /\
  (forall entry, d_spaces dictionary !! id = Some entry ->
     coords entry = None ->
     paste_space dictionary lyr y x elem res = Err (KeyError "coords")).
Proof.
  intros Hs Hv Hl.
  destruct (Space_image_missing dictionary elem SpacesPng id Hs Hv) as [H1 H2].
  unfold paste_space. destruct (decide (layer elem = Some lyr)); [|contradiction].
  split.
  - intros Hd. now rewrite (H1 Hd).
  - intros entry Hd Hc. now rewrite (H2 entry Hd Hc).
Qed.

Lemma layer_of_identifier elem id :
  space elem = Some id -> layer elem = Some 0 \/ layer elem = Some 1.
Proof.
  intros Hs. unfold layer. rewrite Hs. simpl.
  destruct (String.eqb id "gap"); auto.
Qed.

Lemma space_pass_missing dictionary lyr table res (y x : nat) row elem id :
  table !! y = Some row -> row !! x = Some elem ->
  space elem = Some id -> show elem = true -> layer elem = Some lyr ->
  (d_spaces dictionary !! id = None \/
   exists entry, d_spaces dictionary !! id = Some entry /\ coords entry = None) ->
  exists e, space_pass dictionary lyr table res = Err e.
Proof.
  intros Hy Hx Hs Hv Hl Hd. unfold space_pass.
  apply (for_enumerate_fails _ table 0 y row res Hy). intros s.
  apply (for_enumerate_fails _ row 0 x elem s Hx). intros s'.
  destruct (paste_space_missing dictionary lyr (0 + Z.of_nat y) (0 + Z.of_nat x)
              elem s' id Hs Hv Hl) as [H1 H2].
  destruct Hd as [Hd | (entry & Hd & Hc)]; eauto.
Qed.

(** C3, as the code has it: a ref whose item and token identifiers have
    no image in the dictionary gets no image and pastes nothing, without
    an exception.  A cell gets no tile without an exception exactly when
    it has no identifier or is hidden.  For a visible cell whose
    identifier is not in the spaces dictionary, or is there without
    coordinates, the lookup raises a key error, of the identifier or of
    ["coords"], and the render returns no image: it ends in an
    exception. *)
Theorem missing_images (dictionary : Dictionary) :
  (forall rt y x code r res,
     rt !! code = Some r ->
     ~ resolvable (d_items dictionary) (item r) ->
     ~ resolvable (d_tokens dictionary) (name r) ->
     Ref_image dictionary r TokensPng = None /\
     paste_ref dictionary rt y x code res = Ok res) /\
  (forall elem spaces,
     Space_image dictionary elem spaces = Ok None <->
     space elem = None \/ show elem = false) /\
  (forall lyr y x elem res,
     space elem = None \/ show elem = false ->
     paste_space dictionary lyr y x elem res = Ok res) /\
  (forall lyr y x elem res id,
     space elem = Some id -> show elem = true -> layer elem = Some lyr ->
     (d_spaces dictionary !! id = None ->
        Space_image dictionary elem SpacesPng = Err (KeyError id) /\
        paste_space dictionary lyr y x elem res = Err (KeyError id)) /\
     (forall entry, d_spaces dictionary !! id = Some entry ->
        coords entry = None ->
        Space_image dictionary elem SpacesPng = Err (KeyError "coords") /\
        paste_space dictionary lyr y x elem res = Err (KeyError "coords"))) /\
  (forall table rt dirs (y x : nat) row elem id,
     table !! y = Some row -> row !! x = Some elem ->
     space elem = Some id -> show elem = true ->
     (d_spaces dictionary !! id = None \/
      exists entry, d_spaces dictionary !! id = Some entry /\
                    coords entry = None) ->
     exists e, render_image dictionary table rt dirs = Err e).
Proof.
  split; [|split; [|split; [|split]]].
  - intros rt y x code r res Hr Hi Ht.
    assert (E : Ref_image dictionary r TokensPng = None).
    { unfold Ref_image. now rewrite !Ref__image_None. }
    split; [exact E|]. unfold paste_ref. rewrite Hr. simpl. rewrite E.
    now destruct (pos r).
  - intros elem spaces. apply Space_image_none.
  - intros lyr y x elem res Hskip. unfold paste_space.
    destruct (decide (layer elem = Some lyr)); [|reflexivity].
    apply (Space_image_none dictionary elem SpacesPng) in Hskip.
    now rewrite Hskip.
  - intros lyr y x elem res id Hs Hv Hl.
    destruct (Space_image_missing dictionary elem SpacesPng id Hs Hv) as [S1 S2].
    destruct (paste_space_missing dictionary lyr y x elem res id Hs Hv Hl)
      as [P1 P2].
    split; [intros Hd; auto | intros entry Hd Hc; eauto].
  - intros table rt dirs y x row elem id Hy Hx Hs Hv Hd. unfold render_image.
    destruct (shape table) as [[h w]|]; simpl; [|eauto].
    destruct (layer_of_identifier elem id Hs) as [Hl|Hl].
    + destruct (space_pass_missing dictionary 0 table (Image_new (w * WIDTH, h * HEIGHT))
                  y x row elem id Hy Hx Hs Hv Hl Hd) as [e He].
      rewrite He. simpl. eauto.
    + destruct (space_pass dictionary 0 table _) as [c|e]; simpl; [|eauto].
      destruct (space_pass_missing dictionary 1 table c
                  y x row elem id Hy Hx Hs Hv Hl Hd) as [e He].
      rewrite He. simpl. eauto.
Qed.

(** C3, as stated, fails for space identifiers: a visible cell whose
    identifier is not in the dictionary ends the render with a key
    error. *)
Lemma missing_space_counterexample :
  Space_image no_sprites (Space_init "lava" []) SpacesPng =
    Err (KeyError "lava") /\
  render_image no_sprites [[Space_init "lava" []]] ∅ no_dirs =
    Err (KeyError "lava").
Proof. split; vm_compute; reflexivity. Qed.

Lemma missing_images_witness :
  paste_ref no_sprites two_columns_refs 0 0 "t" (Image_new (32, 32)) =
    Ok (Image_new (32, 32)) /\
  paste_space no_sprites 1 0 0 (Space_init "lava?" []) (Image_new (32, 32)) =
    Ok (Image_new (32, 32)) /\
  paste_space no_sprites 1 0 0 (Space_init "lava" []) (Image_new (32, 32)) =
    Err (KeyError "lava") /\
  exists e, render_image no_sprites [[Space_init "lava" []]] ∅ no_dirs = Err e.
Proof.
  destruct (missing_images no_sprites) as (Href & _ & Hskip & Hspace & Hrender).
  split; [|split; [|split]].
  - apply (Href two_columns_refs 0 0 "t" (mkRef "knight" "nil" (3, 4))).
    + vm_compute. reflexivity.
    + intros (entry & xy & Hd & _). vm_compute in Hd. discriminate.
    + intros (entry & xy & Hd & _). vm_compute in Hd. discriminate.
  - apply Hskip. right. reflexivity.
  - apply (Hspace 1 0 0 (Space_init "lava" []) (Image_new (32, 32)) "lava");
      reflexivity.
  - apply (Hrender [[Space_init "lava" []]] ∅ no_dirs 0%nat 0%nat
             [Space_init "lava" []] (Space_init "lava" []) "lava");
      try reflexivity.
    left. reflexivity.
Defined.

(** ** The order of the passes *)

Lemma extends_none (Q : Sprite * (Z * Z) -> Prop) s :
  (forall ip, ~ Q ip) -> extends Q s s.
Proof.
  intros HQ. exists []. simpl. rewrite app_nil_r. repeat split.
  - intros Hin. now apply not_elem_of_nil in Hin.
  - intros Hq. now apply HQ in Hq.
Qed.

Lemma extends_iff (Q Q' : Sprite * (Z * Z) -> Prop) s s' :
  (forall ip, Q ip <-> Q' ip) -> extends Q s s' -> extends Q' s s'.
Proof.
  intros HQ (ps & L & Sz & F). exists ps. repeat split; auto.
  - intros Hin. apply HQ, F, Hin.
  - intros Hq. apply F, HQ, Hq.
Qed.

Lemma extends_trans (Q1 Q2 : Sprite * (Z * Z) -> Prop) s1 s2 s3 :
  extends Q1 s1 s2 -> extends Q2 s2 s3 ->
  extends (fun ip => Q1 ip \/ Q2 ip) s1 s3.
Proof.
  intros (p1 & L1 & S1 & F1) (p2 & L2 & S2 & F2). exists (p1 ++ p2).
  rewrite L2, L1, map_app, app_assoc. repeat split; [congruence| |].
  - intros Hin. apply elem_of_app in Hin.
    destruct Hin as [Hin|Hin]; [left; now apply F1 | right; now apply F2].
  - intros [Hq|Hq]; apply elem_of_app; [left; now apply F1 | right; now apply F2].
Qed.

Lemma extends_paste img at_ s s' :
  paste img at_ s = Ok s' -> extends (fun ip => ip = (img, at_)) s s'.
Proof.
  unfold paste. destruct at_ as [x y].
  destruct (c_int x && c_int y && c_int (x + sprite_width img) &&
            c_int (y + sprite_height img)); [|discriminate].
  intros E; inversion E. exists [(img, (x, y))]. repeat split.
  - intros Hin. now apply list_elem_of_singleton in Hin.
  - intros ->. now apply list_elem_of_singleton.
Qed.

Lemma for_enumerate_extends {A : Type} (body : Z -> A -> Canvas -> result Canvas)
    (Q : Z -> A -> Sprite * (Z * Z) -> Prop) :
  (forall i a s s', body i a s = Ok s' -> extends (Q i a) s s') ->
  forall l i0 s s', for_enumerate body i0 l s = Ok s' ->
    extends (fun ip => exists (k : nat) a,
               l !! k = Some a /\ Q (i0 + Z.of_nat k) a ip) s s'.
Proof.
  intros Hbody. induction l as [|a l IH]; simpl; intros i0 s s' E.
  - inversion E. apply extends_none. intros ip (k & b & Hk & _).
    now rewrite lookup_nil in Hk.
  - destruct (body i0 a s) as [s1|] eqn:E1; simpl in E; [|discriminate].
    eapply extends_iff; [|exact (extends_trans _ _ _ _ _ (Hbody _ _ _ _ E1) (IH _ _ _ E))].
    intros ip. split.
    + intros [Hq | (k & b & Hk & Hq)].
      * exists 0%nat, a. split; [reflexivity|]. now rewrite Z.add_0_r.
      * exists (S k), b. split; [exact Hk|].
        now replace (i0 + Z.of_nat (S k)) with (i0 + 1 + Z.of_nat k) by lia.
    + intros ([|k] & b & Hk & Hq); simpl in Hk.
      * inversion Hk; subst b. left. now rewrite Z.add_0_r in Hq.
      * right. exists k, b. split; [exact Hk|].
        now replace (i0 + 1 + Z.of_nat k) with (i0 + Z.of_nat (S k)) by lia.
Qed.

Lemma for_each_extends {A : Type} (body : A -> Canvas -> result Canvas)
    (Q : A -> Sprite * (Z * Z) -> Prop) :
  (forall a s s', body a s = Ok s' -> extends (Q a) s s') ->
  forall l s s', for_each body l s = Ok s' ->
    extends (fun ip => exists a, a ∈ l /\ Q a ip) s s'.
Proof.
  intros Hbody. induction l as [|a l IH]; simpl; intros s s' E.
  - inversion E. apply extends_none. intros ip (b & Hb & _).
    now apply not_elem_of_nil in Hb.
  - destruct (body a s) as [s1|] eqn:E1; simpl in E; [|discriminate].
    eapply extends_iff; [|exact (extends_trans _ _ _ _ _ (Hbody _ _ _ E1) (IH _ _ E))].
    intros ip. split.
    + intros [Hq | (b & Hb & Hq)].
      * exists a. split; [apply list_elem_of_here | exact Hq].
      * exists b. split; [now apply list_elem_of_further | exact Hq].
    + intros (b & Hb & Hq). apply elem_of_cons in Hb.
      destruct Hb as [->|Hb]; [now left | right; eauto].
Qed.

Lemma paste_space_extends dictionary lyr y x elem s s' :
  paste_space dictionary lyr y x elem s = Ok s' ->
  extends (fun ip => layer elem = Some lyr /\
             Space_image dictionary elem SpacesPng = Ok (Some (fst ip)) /\
             snd ip = (x * 32, y * 32)) s s'.
Proof.
  unfold paste_space. destruct (decide (layer elem = Some lyr)) as [Hl|Hl].
  - destruct (Space_image dictionary elem SpacesPng) as [[img|]|] eqn:Hi;
      simpl; intros E.
    + apply extends_paste in E. eapply extends_iff; [|exact E].
      intros [i at_]. simpl. split.
      * intros Heq; inversion Heq; subst. auto.
      * intros (_ & Himg & Hat). inversion Himg; subst. reflexivity.
    + inversion E. apply extends_none. intros ip (_ & Himg & _). discriminate.
    + discriminate.
  - intros E; inversion E. apply extends_none. intros ip (Hl' & _). contradiction.
Qed.

Lemma space_pass_extends dictionary lyr table s s' :
  space_pass dictionary lyr table s = Ok s' ->
  extends (tile_of dictionary table lyr) s s'.
Proof.
  intros E. unfold space_pass in E.
  apply (for_enumerate_extends _
           (fun y row ip => exists (x : nat) elem, row !! x = Some elem /\
              layer elem = Some lyr /\
              Space_image dictionary elem SpacesPng = Ok (Some (fst ip)) /\
              snd ip = (Z.of_nat x * 32, y * 32))) in E.
  - eapply extends_iff; [|exact E]. intros ip. unfold tile_of. split.
    + intros (y & row & Hy & x & elem & Hx & Hl & Hi & Hat).
      exists y, x, row, elem. now rewrite Z.add_0_l in Hat.
    + intros (y & x & row & elem & Hy & Hx & Hl & Hi & Hat).
      exists y, row. split; [exact Hy|]. exists x, elem.
      now rewrite Z.add_0_l.
  - intros y row c c' Er.
    apply (for_enumerate_extends _
             (fun x elem ip => layer elem = Some lyr /\
                Space_image dictionary elem SpacesPng = Ok (Some (fst ip)) /\
                snd ip = (x * 32, y * 32))) in Er.
    + eapply extends_iff; [|exact Er]. intros ip. split.
      * intros (x & elem & Hx & Hl & Hi & Hat).
        exists x, elem. now rewrite Z.add_0_l in Hat.
      * intros (x & elem & Hx & Hl & Hi & Hat).
        exists x, elem. now rewrite Z.add_0_l.
    + intros x elem. apply paste_space_extends.
Qed.

Lemma paste_ref_extends dictionary rt y x code s s' :
  paste_ref dictionary rt y x code s = Ok s' ->
  extends (fun ip => exists r, rt !! code = Some r /\
             Ref_image dictionary r TokensPng = Some (fst ip) /\
             snd ip = (x * 32 + fst (pos r), y * 32 + snd (pos r))) s s'.
Proof.
  unfold paste_ref. destruct (rt !! code) as [r|]; simpl; [|discriminate].
  destruct (pos r) as [dx dy] eqn:Hp.
  destruct (Ref_image dictionary r TokensPng) as [img|] eqn:Hi; intros E.
  - apply extends_paste in E. eapply extends_iff; [|exact E].
    intros [i at_]. simpl. split.
    + intros Heq; inversion Heq; subst i at_. exists r.
      rewrite Hp. repeat split. exact Hi.
    + intros (r' & Hr' & Himg & Hat). inversion Hr'; subst r'.
      rewrite Hp in Hat. simpl in Hat. subst at_.
      rewrite Hi in Himg. inversion Himg; subst i. reflexivity.
  - inversion E. apply extends_none. intros ip (r' & Hr' & Himg & _).
    inversion Hr'; subst r'. congruence.
Qed.

Lemma ref_pass_extends dictionary rt table s s' :
  ref_pass dictionary rt table s = Ok s' ->
  extends (token_of dictionary rt table) s s'.
Proof.
  intros E. unfold ref_pass in E.
  apply (for_enumerate_extends _
           (fun y row ip => exists (x : nat) elem code r,
              row !! x = Some elem /\ code ∈ refs elem /\
              rt !! code = Some r /\
              Ref_image dictionary r TokensPng = Some (fst ip) /\
              snd ip = (Z.of_nat x * 32 + fst (pos r), y * 32 + snd (pos r))))
    in E.
  - eapply extends_iff; [|exact E]. intros ip. unfold token_of. split.
    + intros (y & row & Hy & x & elem & code & r & Hx & Hc & Hr & Hi & Hat).
      exists y, x, row, elem, code, r. now rewrite Z.add_0_l in Hat.
    + intros (y & x & row & elem & code & r & Hy & Hx & Hc & Hr & Hi & Hat).
      exists y, row. split; [exact Hy|]. exists x, elem, code, r.
      now rewrite Z.add_0_l.
  - intros y row c c' Er.
    apply (for_enumerate_extends _
             (fun x elem ip => exists code r,
                code ∈ refs elem /\ rt !! code = Some r /\
                Ref_image dictionary r TokensPng = Some (fst ip) /\
                snd ip = (x * 32 + fst (pos r), y * 32 + snd (pos r)))) in Er.
    + eapply extends_iff; [|exact Er]. intros ip. split.
      * intros (x & elem & Hx & code & r & Hc & Hr & Hi & Hat).
        exists x, elem, code, r. now rewrite Z.add_0_l in Hat.
      * intros (x & elem & code & r & Hx & Hc & Hr & Hi & Hat).
        exists x, elem. split; [exact Hx|]. exists code, r.
        now rewrite Z.add_0_l.
    + intros x elem c0 c1 Ec.
      apply (for_each_extends _
               (fun code ip => exists r, rt !! code = Some r /\
                  Ref_image dictionary r TokensPng = Some (fst ip) /\
                  snd ip = (x * 32 + fst (pos r), y * 32 + snd (pos r)))) in Ec.
      * eapply extends_iff; [|exact Ec]. intros ip. split.
        -- intros (code & Hc & r & Hr & Hi & Hat). now exists code, r.
        -- intros (code & r & Hc & Hr & Hi & Hat). exists code. eauto.
      * intros code. apply paste_ref_extends.
Qed.

Lemma highlight_draws image args image' :
  highlight image args = Ok image' ->
  exists pts, image' = draw (Line pts "red" 4) image.
Proof.
  unfold highlight. destruct args as [|rc [|num [|? ?]]]; try discriminate.
  destruct (Py.int num) as [n|]; simpl; [|discriminate].
  destruct (String.eqb rc "ROW");
    [intros E; apply ImageDraw_line_inv in E; eauto|].
  destruct (String.eqb rc "COLUMN");
    [intros E; apply ImageDraw_line_inv in E; eauto|].
  discriminate.
Qed.

#[local] Arguments call : simpl never.

Lemma run_dirs_lines dirs res img :
  run_dirs dirs res = Ok img ->
  exists lines, log img = log res ++ lines /\ Forall is_line lines.
Proof.
  unfold run_dirs. generalize (closures dirs) as l. intros l. revert res.
  induction l as [|[] l IH]; simpl; intros res E.
  - inversion E. exists []. now rewrite app_nil_r.
  - destruct (call (frame dirs) Lambda_image res) as [c|] eqn:Ec;
      simpl in E; [|discriminate].
    unfold call in Ec. destruct (fn (frame dirs)) as [[]|]; simpl in Ec;
      [|discriminate].
    destruct (highlight_draws _ _ _ Ec) as [pts ->].
    destruct (IH _ E) as (lines & -> & Hl).
    exists (Line pts "red" 4 :: lines). simpl. rewrite <- app_assoc.
    split; [reflexivity|]. now constructor.
Qed.

(** On the channels of an 8-bit image, the blend with the mask 255 is the
    new channel and the blend with the mask 0 is the old one. *)
Lemma div255_exact c : 0 <= c <= 255 -> div255 (c * 255) = c.
Proof.
  intros Hc.
  assert (E : forallb (fun n => div255 (Z.of_nat n * 255) =? Z.of_nat n)
                      (seq 0 256) = true) by (vm_compute; reflexivity).
  rewrite forallb_forall in E. specialize (E (Z.to_nat c)).
  rewrite Z2Nat.id in E by lia. apply Z.eqb_eq, E. apply in_seq. lia.
Qed.

Lemma blend8_mask_ends c0 c1 :
  0 <= c0 <= 255 -> 0 <= c1 <= 255 ->
  blend8 255 c0 c1 = c1 /\ blend8 0 c0 c1 = c0.
Proof.
  intros H0 H1. unfold blend8. split.
  - replace (c0 * (255 - 255) + c1 * 255) with (c1 * 255) by lia.
    now apply div255_exact.
  - replace (c0 * (255 - 0) + c1 * 0) with (c0 * 255) by lia.
    now apply div255_exact.
Qed.

Section Occlusion.

Context `{PixelModel}.
Variable sheet_px : Sheet -> Z * Z -> pixel.

Lemma paste_px_local ip (f g : Z * Z -> pixel) p :
  f p = g p -> paste_px sheet_px ip f p = paste_px sheet_px ip g p.
Proof.
  intros E. unfold paste_px. destruct ip as [img at_].
  destruct (covers img at_ p); now rewrite E.
Qed.

Lemma composite_local ps : forall (f g : Z * Z -> pixel) p,
  f p = g p -> composite sheet_px ps f p = composite sheet_px ps g p.
Proof.
  induction ps as [|ip ps IH]; simpl; intros f g p E; [exact E|].
  apply IH. now apply paste_px_local.
Qed.

Lemma composite_app ps qs (f : Z * Z -> pixel) :
  composite sheet_px (ps ++ qs) f = composite sheet_px qs (composite sheet_px ps f).
Proof. unfold composite. apply fold_left_app. Qed.

(** An opaque pixel pasted at [p] hides whatever was there before. *)
Lemma composite_opaque ps : forall (f g : Z * Z -> pixel) p,
  existsb (opaque_at sheet_px p) ps = true ->
  composite sheet_px ps f p = composite sheet_px ps g p.
Proof.
  induction ps as [|ip ps IH]; simpl; intros f g p E; [discriminate|].
  apply orb_true_iff in E. destruct E as [E|E]; [|now apply IH].
  apply composite_local. unfold opaque_at in E. apply andb_true_iff in E.
  destruct E as [Hc Ho]. unfold paste_px. destruct ip as [img at_].
  simpl in Hc, Ho. rewrite Hc. now rewrite !over_opaque.
Qed.

Lemma composite_opaque_member ps ip (f g : Z * Z -> pixel) p :
  ip ∈ ps -> opaque_at sheet_px p ip = true ->
  composite sheet_px ps f p = composite sheet_px ps g p.
Proof.
  intros Hin Ho. apply composite_opaque. apply existsb_exists.
  exists ip. split; [now apply list_elem_of_In | exact Ho].
Qed.

(** Pastes that do not cover [p], or cover it with a transparent pixel,
    leave it as it was. *)
Lemma composite_clear ps : forall (f : Z * Z -> pixel) p,
  forallb (clear_at sheet_px p) ps = true ->
  composite sheet_px ps f p = f p.
Proof.
  induction ps as [|ip ps IH]; simpl; intros f p E; [reflexivity|].
  apply andb_true_iff in E. destruct E as [Hc Hrest].
  rewrite (IH _ _ Hrest). unfold paste_px, clear_at in *.
  destruct ip as [img at_]. simpl in Hc.
  destruct (covers img at_ p); simpl in Hc; [|reflexivity].
  now apply over_clear.
Qed.

(** C5, as the code has it.  A render that returns has made its calls in
    this order: the tile of every cell of layer 0 that has one, then the
    tile of every cell of layer 1 that has one, then the image of every
    ref that has one, each at its place and nothing else, and only then
    the directives, which are given the image with all those pastes and
    only draw lines.  The pastes of a pass are laid over what the passes
    before it left.  Wherever the tile of a cell of layer 1 is opaque,
    the image after the two space passes is what the layer 1 pass alone
    leaves there on any background, and wherever the image of a ref is
    opaque, the image after the three passes is what the ref pass alone
    leaves there, whatever the places of the cells in the grid.  Where
    the pastes of a pass are transparent, or do not reach, what the
    passes before it left stays. *)
Theorem render_order dictionary table rt dirs img :
  render_image dictionary table rt dirs = Ok img ->
  exists gaps normals tokens lines res,
    log img = map to_op gaps ++ map to_op normals ++ map to_op tokens ++ lines /\
    (forall ip, ip ∈ gaps <-> tile_of dictionary table 0 ip) /\
    (forall ip, ip ∈ normals <-> tile_of dictionary table 1 ip) /\
    (forall ip, ip ∈ tokens <-> token_of dictionary rt table ip) /\
    Forall is_line lines /\
    log res = map to_op (gaps ++ normals ++ tokens) /\
    run_dirs dirs res = Ok img /\
    forall (background : Z * Z -> pixel) (p : Z * Z),
      composite sheet_px (gaps ++ normals ++ tokens) background p =
        composite sheet_px tokens
          (composite sheet_px normals (composite sheet_px gaps background)) p /\
      (forall ip, tile_of dictionary table 1 ip ->
         opaque_at sheet_px p ip = true ->
         forall f, composite sheet_px (gaps ++ normals) background p =
                   composite sheet_px normals f p) /\
      (forall ip, token_of dictionary rt table ip ->
         opaque_at sheet_px p ip = true ->
         forall f, composite sheet_px (gaps ++ normals ++ tokens) background p =
                   composite sheet_px tokens f p) /\
      (forallb (clear_at sheet_px p) tokens = true ->
         composite sheet_px (gaps ++ normals ++ tokens) background p =
         composite sheet_px (gaps ++ normals) background p) /\
      (forallb (clear_at sheet_px p) normals = true ->
         composite sheet_px (gaps ++ normals) background p =
         composite sheet_px gaps background p).
Proof.
  unfold render_image. intros E.
  destruct (shape table) as [[h w]|]; simpl in E; [|discriminate].
  destruct (space_pass dictionary 0 table _) as [c0|] eqn:E0;
    simpl in E; [|discriminate].
  destruct (space_pass dictionary 1 table c0) as [c1|] eqn:E1;
    simpl in E; [|discriminate].
  destruct (ref_pass dictionary rt table c1) as [c2|] eqn:E2;
    simpl in E; [|discriminate].
  destruct (run_dirs dirs c2) as [c3|] eqn:E3; simpl in E; [|discriminate].
  inversion E; subst c3. clear E.
  apply space_pass_extends in E0. destruct E0 as (gaps & L0 & _ & F0).
  apply space_pass_extends in E1. destruct E1 as (normals & L1 & _ & F1).
  apply ref_pass_extends in E2. destruct E2 as (tokens & L2 & _ & F2).
  destruct (run_dirs_lines _ _ _ E3) as (lines & L3 & F3).
  simpl in L0.
  assert (Lres : log c2 = map to_op (gaps ++ normals ++ tokens)).
  { rewrite L2, L1, L0, !map_app. now rewrite app_assoc. }
  exists gaps, normals, tokens, lines, c2.
  split; [rewrite L3, Lres, !map_app, <- !app_assoc; reflexivity|].
  split; [exact F0|]. split; [exact F1|]. split; [exact F2|].
  split; [exact F3|]. split; [exact Lres|]. split; [exact E3|].
  intros background p. split; [|split; [|split; [|split]]].
  - now rewrite !composite_app.
  - intros ip Hip Ho f. rewrite composite_app.
    apply (composite_opaque_member normals ip); [now apply F1 | exact Ho].
  - intros ip Hip Ho f. rewrite app_assoc, composite_app.
    apply (composite_opaque_member tokens ip); [now apply F2 | exact Ho].
  - intros Hc. rewrite app_assoc, composite_app. now apply composite_clear.
  - intros Hc. rewrite composite_app. now apply composite_clear.
Qed.

End Occlusion.

(** C5, as stated, fails where an image is transparent.  The cell has the
    opaque tile of [a] and the token [t], whose image is transparent: the
    token image, pasted at (3, 4), covers the point (5, 5), and the image
    shows the tile there. *)
Lemma transparent_token_counterexample :
  exists img tile token,
    render_image dict0 [[Space_init "a" ["t"]]] two_columns_refs no_dirs = Ok img /\
    pastes_of (log img) = [tile; token] /\
    tile_of dict0 [[Space_init "a" ["t"]]] 1 tile /\
    token_of dict0 two_columns_refs [[Space_init "a" ["t"]]] token /\
    covers (fst token) (snd token) (5, 5) = true /\
    composite clear_tokens (pastes_of (log img)) (fun _ => (0, 0, 0, 0)) (5, 5) =
      sprite_px clear_tokens (fst tile) (5, 5) /\
    composite clear_tokens (pastes_of (log img)) (fun _ => (0, 0, 0, 0)) (5, 5) <>
      sprite_px clear_tokens (fst token) (2, 1).
Proof.
  exists (mkCanvas (32, 32)
            [Paste (crop SpacesPng (0, 0, 32, 32)) (0, 0);
             Paste (crop TokensPng (0, 0, 16, 16)) (3, 4)]),
    (crop SpacesPng (0, 0, 32, 32), (0, 0)),
    (crop TokensPng (0, 0, 16, 16), (3, 4)).
  split; [vm_compute; reflexivity|]. split; [reflexivity|].
  split.
  { exists 0%nat, 0%nat, [Space_init "a" ["t"]], (Space_init "a" ["t"]).
    repeat split; vm_compute; reflexivity. }
  split.
  { exists 0%nat, 0%nat, [Space_init "a" ["t"]], (Space_init "a" ["t"]),
      "t", (mkRef "knight" "nil" (3, 4)).
    repeat split; try (vm_compute; reflexivity). apply list_elem_of_here. }
  split; [vm_compute; reflexivity|].
  split; [vm_compute; reflexivity|].
  vm_compute. discriminate.
Qed.

Lemma render_order_witness :
  exists gaps normals tokens lines,
    log two_columns_image =
      map to_op gaps ++ map to_op normals ++ map to_op tokens ++ lines /\
    (forall ip, ip ∈ gaps <-> tile_of dict0 two_columns_table 0 ip) /\
    (forall ip, ip ∈ normals <-> tile_of dict0 two_columns_table 1 ip) /\
    (forall ip, ip ∈ tokens <->
       token_of dict0 two_columns_refs two_columns_table ip) /\
    Forall is_line lines /\
    (forall f, composite painted_tokens (gaps ++ normals ++ tokens)
                 (fun _ => (0, 0, 0, 0)) (5, 5) =
               composite painted_tokens tokens f (5, 5)) /\
    (forall f, composite painted_tokens (gaps ++ normals)
                 (fun _ => (0, 0, 0, 0)) (25, 25) =
               composite painted_tokens normals f (25, 25)).
Proof.
  destruct (@render_order rgba8 painted_tokens
              dict0 two_columns_table two_columns_refs row_one_dirs
              two_columns_image ltac:(vm_compute; reflexivity))
    as (gaps & normals & tokens & lines & res & L & F0 & F1 & F2 & F3 & _ & _ & Hpx).
  exists gaps, normals, tokens, lines.
  split; [exact L|]. split; [exact F0|]. split; [exact F1|].
  split; [exact F2|]. split; [exact F3|]. split.
  - destruct (Hpx (fun _ => (0, 0, 0, 0)) (5, 5)) as (_ & _ & Htok & _).
    apply (Htok (crop TokensPng (0, 0, 16, 16), (3, 4))).
    + exists 0%nat, 0%nat, [Space_init "a" ["t"]; Space_init "b?" []],
        (Space_init "a" ["t"]), "t", (mkRef "knight" "nil" (3, 4)).
      repeat split; try (vm_compute; reflexivity). apply list_elem_of_here.
    + vm_compute. reflexivity.
  - destruct (Hpx (fun _ => (0, 0, 0, 0)) (25, 25)) as (_ & Htile & _).
    apply (Htile (crop SpacesPng (0, 0, 32, 32), (0, 0))).
    + exists 0%nat, 0%nat, [Space_init "a" ["t"]; Space_init "b?" []],
        (Space_init "a" ["t"]).
      repeat split; vm_compute; reflexivity.
    + vm_compute. reflexivity.
Defined.

(** * Further properties of the parser *)

(** ** Blank lines and words *)

Lemma lstrip_allspace (s : string) : allspace s = true -> Py.lstrip s = "".
Proof.
  induction s as [|a s IH]; simpl; [reflexivity|].
  intros E. apply andb_true_iff in E. destruct E as [Ha Hs].
  rewrite Ha. auto.
Qed.

Lemma rstrip_nonblank (a : ascii) (r : string) :
  Py.isspace a = false -> Py.rstrip (String a r) <> "".
Proof.
  intros Ha. simpl. destruct (Py.rstrip r); [rewrite Ha|]; discriminate.
Qed.

Lemma strip_empty (s : string) : Py.strip s = "" <-> allspace s = true.
Proof.
  unfold Py.strip. split.
  - induction s as [|a s IH]; simpl; [reflexivity|].
    destruct (Py.isspace a) eqn:Ha; simpl; [exact IH|].
    intros E. exfalso. revert E. fold (Py.rstrip (String a s)).
    now apply rstrip_nonblank.
  - intros E. now rewrite lstrip_allspace.
Qed.

Lemma words_go_some (s : string) : forall w, Py.words_go (Some w) s <> [].
Proof.
  induction s as [|a s IH]; simpl; intros w; [discriminate|].
  destruct (Py.isspace a); [discriminate | apply IH].
Qed.

Lemma words_empty (s : string) : Py.words s = [] <-> allspace s = true.
Proof.
  unfold Py.words. induction s as [|a s IH]; simpl; [tauto|].
  destruct (Py.isspace a); simpl; [exact IH|].
  split; [|discriminate]. intros E. now apply words_go_some in E.
Qed.

Lemma blank_words (line : string) : blank line = true <-> Py.words line = [].
Proof.
  unfold blank. rewrite words_empty, <- strip_empty.
  destruct (String.eqb_spec (Py.strip line) ""); split; congruence.
Qed.

Lemma nonblank_head (line : string) :
  blank line = false -> exists key, head (Py.words line) = Some key.
Proof.
  intros Hb. destruct (Py.words line) as [|key ws] eqn:E; [|simpl; eauto].
  apply blank_words in E. congruence.
Qed.

(** ** The directive section *)

Lemma read_dirs_step dirs fr line rest key f :
  blank line = false ->
  head (Py.words line) = Some key -> DIRECTIVES !! key = Some f ->
  read_dirs dirs fr (line :: rest) =
  read_dirs (dirs ++ [Lambda_image]) (mkFrame (Some f) (Py.words line)) rest.
Proof.
  intros Hb Hk Hf. simpl. rewrite Hb, Hk. simpl. now rewrite Hf.
Qed.

Lemma registry_keys key f : DIRECTIVES !! key = Some f -> key = "HIGHLIGHT".
Proof.
  unfold DIRECTIVES. intros E.
  apply lookup_singleton_Some in E. now destruct E.
Qed.

(** The directive section is accepted exactly when the first word of each
    of its lines is a key of the registry; the arguments are not looked
    at.  One lambda is appended per line, and the frame they share is left
    holding the handler and the words of the last line. *)
Theorem read_dirs_spec (infile : list string) : forall dirs fr,
  (Forall known_directive (section_lines infile) ->
   read_dirs dirs fr infile =
   Ok (mkDirs (dirs ++ replicate (length (section_lines infile)) Lambda_image)
         (match last (section_lines infile) with
          | Some line =>
              mkFrame (DIRECTIVES !! default "" (head (Py.words line)))
                      (Py.words line)
          | None => fr
          end))) /\
  (forall d, read_dirs dirs fr infile = Ok d ->
     Forall known_directive (section_lines infile)).
Proof.
  induction infile as [|line rest IH]; intros dirs fr.
  - split.
    + intros _. simpl. now rewrite app_nil_r.
    + intros d _. constructor.
  - simpl. destruct (blank line) eqn:Hb.
    + split.
      * intros _. simpl. now rewrite app_nil_r.
      * intros d _. constructor.
    + destruct (nonblank_head line Hb) as [key Hk]. rewrite Hk. simpl.
      destruct (DIRECTIVES !! key) as [f|] eqn:Hf; simpl.
      * destruct (IH (dirs ++ [Lambda_image]) (mkFrame (Some f) (Py.words line)))
          as [IH1 IH2].
        split.
        -- intros Hall. inversion Hall as [|? ? _ Hrest]; subst.
           rewrite (IH1 Hrest), <- app_assoc. simpl.
           destruct (section_lines rest) as [|l ls] eqn:Hs; simpl.
           ++ rewrite Hk. simpl. now rewrite Hf.
           ++ destruct (proj2 (last_is_Some (l :: ls))) as [x ->];
                [discriminate | reflexivity].
        -- intros d E. constructor; [now exists key, f | eauto].
      * split.
        -- intros Hall. inversion Hall as [|? ? (k & f & Hk' & Hf') _]; subst.
           congruence.
        -- discriminate.
Qed.

(** A directive section is refused only for a line whose first word is
    not in the registry, with the key error of that word; no other
    exception leaves the loop. *)
Theorem read_dirs_unknown (infile : list string) : forall dirs fr e,
  read_dirs dirs fr infile = Err e ->
  exists line key,
    line ∈ section_lines infile /\
    head (Py.words line) = Some key /\
    DIRECTIVES !! key = None /\
    e = KeyError key.
Proof.
  induction infile as [|line rest IH]; intros dirs fr e; simpl; [discriminate|].
  destruct (blank line) eqn:Hb; [discriminate|].
  destruct (nonblank_head line Hb) as [key Hk]. rewrite Hk. simpl.
  destruct (DIRECTIVES !! key) as [f|] eqn:Hf; simpl.
  - intros E. destruct (IH _ _ _ E) as (l & k & Hin & Hh & Hd & He).
    exists l, k. repeat split; auto. now apply list_elem_of_further.
  - intros E. inversion E. exists line, key. repeat split; auto.
    apply list_elem_of_here.
Qed.

Lemma read_dirs_unknown_witness :
  exists line key,
    line ∈ section_lines ["HIGHLIGHT ROW 1"; "SHADE ROW 2"] /\
    head (Py.words line) = Some key /\
    DIRECTIVES !! key = None /\
    KeyError "SHADE" = KeyError key.
Proof.
  apply (read_dirs_unknown ["HIGHLIGHT ROW 1"; "SHADE ROW 2"]
           [] (mkFrame None []) (KeyError "SHADE")).
  vm_compute. reflexivity.
Defined.

Lemma read_dirs_spec_witness :
  read_dirs [] (mkFrame None []) ["HIGHLIGHT ROW 1"; "HIGHLIGHT what ever"; ""; "x"] =
  Ok (mkDirs [Lambda_image; Lambda_image]
        (mkFrame (Some fn_highlight) ["HIGHLIGHT"; "what"; "ever"])).
Proof.
  destruct (read_dirs_spec ["HIGHLIGHT ROW 1"; "HIGHLIGHT what ever"; ""; "x"]
              [] (mkFrame None [])) as [Hok _].
  rewrite Hok; [vm_compute; reflexivity|].
  repeat constructor; exists "HIGHLIGHT", fn_highlight; split; reflexivity.
Defined.

(** ** The ref section *)

Lemma parse_ref_words line ref nm it x y :
  Py.words line = [ref; nm; it; x; y] ->
  parse_ref line =
    match Py.int x, Py.int y with
    | Some x, Some y => Some (ref, mkRef nm it (x, y))
    | _, _ => None
    end.
Proof. intros E. unfold parse_ref. now rewrite E. Qed.

Lemma read_refs_step rt line rest :
  blank line = false ->
  read_refs rt (line :: rest) =
    match parse_ref line with
    | Some _ => read_refs (store_ref rt line) rest
    | None =>
        match Py.words line with
        | [_; _; _; _; _] => Err (ValueError "int")
        | _ => Err (ValueError "unpack")
        end
    end.
Proof.
  intros Hb. simpl. rewrite Hb. unfold store_ref, parse_ref.
  destruct (Py.words line) as [|w1 [|w2 [|w3 [|w4 [|w5 [|w6 ws]]]]]];
    try reflexivity.
  destruct (Py.int w4) as [x|]; simpl; [|reflexivity].
  destruct (Py.int w5) as [y|]; simpl; reflexivity.
Qed.

Lemma read_refs_fold (infile : list string) : forall rt rt' rest,
  read_refs rt infile = Ok (rt', rest) ->
  rt' = fold_left store_ref (section_lines infile) rt /\
  rest = after_section infile.
Proof.
  induction infile as [|line rest0 IH]; intros rt rt' rest.
  - simpl. intros E; inversion E. auto.
  - destruct (blank line) eqn:Hb.
    + simpl. rewrite Hb. intros E; inversion E. auto.
    + rewrite (read_refs_step rt line rest0 Hb).
      cbn [section_lines after_section fold_left]. rewrite Hb.
      destruct (parse_ref line) as [cr|] eqn:Hp; [apply IH|].
      destruct (Py.words line) as [|w1 [|w2 [|w3 [|w4 [|w5 [|w6 ws]]]]]];
        discriminate.
Qed.

(** The ref section is accepted exactly when each of its lines has five
    fields, the last two of them integers.  The table it gives is the one
    obtained by storing the refs of its lines one after the other, and the
    lines after the blank line that ends it are left for the directive
    loop. *)
Theorem read_refs_spec (infile : list string) : forall rt,
  (Forall (fun line => is_Some (parse_ref line)) (section_lines infile) ->
   read_refs rt infile =
   Ok (fold_left store_ref (section_lines infile) rt, after_section infile)) /\
  (forall out, read_refs rt infile = Ok out ->
     Forall (fun line => is_Some (parse_ref line)) (section_lines infile)) /\
  (forall e, read_refs rt infile = Err e -> exists what, e = ValueError what).
Proof.
  induction infile as [|line rest IH]; intros rt.
  - repeat split; try discriminate. intros out _. constructor.
  - destruct (blank line) eqn:Hb.
    + simpl. rewrite Hb. repeat split; try discriminate.
      intros out _. constructor.
    + rewrite (read_refs_step rt line rest Hb).
      cbn [section_lines after_section fold_left]. rewrite Hb.
      destruct (parse_ref line) as [cr|] eqn:Hp.
      * destruct (IH (store_ref rt line)) as (IH1 & IH2 & IH3).
        split; [|split].
        -- intros Hall. inversion Hall; subst. now apply IH1.
        -- intros out E. constructor; [rewrite Hp; eauto | eauto].
        -- exact IH3.
      * split; [|split].
        -- intros Hall. inversion Hall as [|? ? [cr Hcr] _]; subst. congruence.
        -- intros out E.
           destruct (Py.words line) as [|w1 [|w2 [|w3 [|w4 [|w5 [|w6 ws]]]]]];
             discriminate.
        -- intros e E.
           destruct (Py.words line) as [|w1 [|w2 [|w3 [|w4 [|w5 [|w6 ws]]]]]];
             inversion E; eauto.
Qed.

Lemma read_refs_spec_witness :
  read_refs ∅ ["t knight nil 3 4"; "u item sword 0 -1"; ""; "HIGHLIGHT ROW 1"] =
  Ok (fold_left store_ref ["t knight nil 3 4"; "u item sword 0 -1"] ∅,
      ["HIGHLIGHT ROW 1"]).
Proof.
  destruct (read_refs_spec
              ["t knight nil 3 4"; "u item sword 0 -1"; ""; "HIGHLIGHT ROW 1"] ∅)
    as (Hok & _).
  apply Hok. repeat constructor; vm_compute; eauto.
Defined.

Lemma store_ref_lookup rt line code :
  store_ref rt line !! code =
    match parse_ref line with
    | Some (c, r) => if decide (c = code) then Some r else rt !! code
    | None => rt !! code
    end.
Proof.
  unfold store_ref. destruct (parse_ref line) as [[c r]|]; [|reflexivity].
  now rewrite lookup_insert.
Qed.

Lemma fold_store_other lines : forall rt code,
  Forall (fun l => fst <$> parse_ref l <> Some code) lines ->
  fold_left store_ref lines rt !! code = rt !! code.
Proof.
  induction lines as [|l lines IH]; intros rt code Hall; simpl; [reflexivity|].
  inversion Hall as [|? ? Hl Hrest]; subst.
  rewrite (IH _ _ Hrest), store_ref_lookup.
  destruct (parse_ref l) as [[c r]|]; [|reflexivity].
  destruct (decide (c = code)) as [->|]; [|reflexivity].
  now contradiction Hl.
Qed.

(** When two lines of the ref section give the same code, the later one
    is the one the table keeps: a code maps to the ref of the last line
    of the section that has it. *)
Theorem read_refs_last_wins infile rt rt' rest pre line post code r :
  read_refs rt infile = Ok (rt', rest) ->
  section_lines infile = pre ++ line :: post ->
  parse_ref line = Some (code, r) ->
  Forall (fun l => fst <$> parse_ref l <> Some code) post ->
  rt' !! code = Some r.
Proof.
  intros E Hs Hp Hpost.
  destruct (read_refs_fold _ _ _ _ E) as [-> _].
  rewrite Hs, fold_left_app. simpl.
  rewrite (fold_store_other _ _ _ Hpost), store_ref_lookup, Hp.
  now destruct (decide (code = code)).
Qed.

Lemma read_refs_last_wins_witness :
  fold_left store_ref ["t knight nil 3 4"; "u item sword 0 0"; "t rook nil 1 1"] ∅
    !! "t" = Some (mkRef "rook" "nil" (1, 1)).
Proof.
  apply (read_refs_last_wins
           ["t knight nil 3 4"; "u item sword 0 0"; "t rook nil 1 1"; ""]
           ∅ _ [] ["t knight nil 3 4"; "u item sword 0 0"] "t rook nil 1 1" []
           "t" (mkRef "rook" "nil" (1, 1))).
  - vm_compute. reflexivity.
  - reflexivity.
  - reflexivity.
  - constructor.
Defined.

(** A code the table holds was either there before the section or is the
    first field of one of its lines, with the ref of that line. *)
Theorem read_refs_origin infile : forall rt rt' rest code r,
  read_refs rt infile = Ok (rt', rest) ->
  rt' !! code = Some r ->
  rt !! code = Some r \/
  exists line, line ∈ section_lines infile /\ parse_ref line = Some (code, r).
Proof.
  intros rt rt' rest code r E.
  destruct (read_refs_fold _ _ _ _ E) as [-> _]. clear E.
  generalize (section_lines infile) as lines. intros lines. revert rt.
  induction lines as [|l lines IH]; intros rt; simpl; [auto|].
  intros Hr. destruct (IH _ Hr) as [Hst|(line & Hin & Hp)].
  - rewrite store_ref_lookup in Hst.
    destruct (parse_ref l) as [[c r0]|] eqn:Hp; [|auto].
    destruct (decide (c = code)) as [->|]; [|auto].
    inversion Hst; subst r0. right. exists l. split; [apply list_elem_of_here | exact Hp].
  - right. exists line. split; [now apply list_elem_of_further | exact Hp].
Qed.

Lemma read_refs_origin_witness :
  (∅ : gmap string Ref) !! "t" = Some (mkRef "knight" "nil" (3, 4)) \/
  exists line, line ∈ section_lines ["t knight nil 3 4"; ""] /\
    parse_ref line = Some ("t", mkRef "knight" "nil" (3, 4)).
Proof.
  apply (read_refs_origin ["t knight nil 3 4"; ""] ∅
           (fold_left store_ref ["t knight nil 3 4"] ∅) []
           "t" (mkRef "knight" "nil" (3, 4))).
  - vm_compute. reflexivity.
  - vm_compute. reflexivity.
Defined.

(** ** Comments and the version line *)

(** After the lines that start with [#], one more line is read and
    dropped, whatever it holds: reading goes on with the line after it. *)
Theorem skip_comments_drops_one (comments : list string) (line : string)
    (rest : list string) :
  Forall (fun l => Py.startswith "#" l = true) comments ->
  Py.startswith "#" line = false ->
  skip_comments (comments ++ line :: rest) = rest /\
  version_line (comments ++ line :: rest) = line.
Proof.
  intros Hc Hl. induction Hc as [|c cs Hc _ IH]; simpl.
  - now rewrite Hl.
  - now rewrite Hc.
Qed.

Lemma skip_comments_drops_one_witness :
  skip_comments (["# a"; "# b"] ++ "1" :: ["+---+"; "| a |"]) = ["+---+"; "| a |"] /\
  version_line (["# a"; "# b"] ++ "1" :: ["+---+"; "| a |"]) = "1".
Proof.
  apply skip_comments_drops_one.
  - repeat constructor.
  - reflexivity.
Defined.

(** A file of comments only, or an empty file, has no version line:
    [int] gets the empty string and the parse ends in a value error. *)
Theorem load_table_comments_only (text : string) :
  Forall (fun l => Py.startswith "#" l = true) (Py.readlines text) ->
  load_table text = Err (ValueError "int").
Proof.
  intros Hc. unfold load_table.
  assert (E : skip_comments (Py.readlines text) = []).
  { induction Hc as [|c cs Hc _ IH]; simpl; [reflexivity | now rewrite Hc]. }
  rewrite E. reflexivity.
Qed.

Lemma load_table_comments_only_witness :
  load_table "# only
# comments
" = Err (ValueError "int").
Proof.
  apply load_table_comments_only. vm_compute. repeat constructor.
Defined.

Lemma load_table_version_witness :
  load_table "# board

2
+---+
" = Err (NameError "StandardError").
Proof.
  apply (load_table_version _ 2); [vm_compute; reflexivity | discriminate].
Defined.

(** ** The cells of a loaded board *)

Lemma loaded_cells text table rt dirs :
  load_table text = Ok (table, rt, dirs) ->
  Forall (Forall (fun elem => exists v z,
            elem = Space_init (Py.remove "*" v) (Py.chars z))) table.
Proof.
  intros E. apply load_table_board in E. subst table.
  rewrite read_board_rows. apply Forall_map, Forall_forall. intros st _.
  unfold read_row. apply Forall_map, Forall_forall. intros vz _. simpl. eauto.
Qed.

Lemma count_remove (c : ascii) (s : string) : Py.count c (Py.remove c s) = 0.
Proof.
  induction s as [|a s IH]; simpl; [reflexivity|].
  destruct (Ascii.eqb a c) eqn:E; simpl; [exact IH | now rewrite E, IH].
Qed.

Lemma count_drop_last (c : ascii) (s : string) :
  Py.count c (Py.drop_last s) <= Py.count c s.
Proof.
  induction s as [|a s IH]; [simpl; lia|].
  destruct s as [|b s]; [simpl; destruct (Ascii.eqb a c); lia|].
  change (Py.drop_last (String a (String b s)))
    with (String a (Py.drop_last (String b s))).
  set (d := Py.drop_last (String b s)) in *.
  set (u := String b s) in *. clearbody d u.
  simpl. destruct (Ascii.eqb a c); lia.
Qed.

Lemma space_abbr_identifier (raw id : string) :
  space_abbr raw = Some id ->
  id <> "" /\ id <> "nil" /\ Py.count "*" id <= Z.max 0 (Py.count "*" raw).
Proof.
  unfold space_abbr.
  set (s := if Py.endswith "?" raw then Py.drop_last raw else raw).
  assert (Hs : Py.count "*" s <= Py.count "*" raw).
  { subst s. destruct (Py.endswith "?" raw); [apply count_drop_last | lia]. }
  destruct (String.eqb_spec s "nil"); [discriminate|].
  destruct (String.eqb_spec s "").
  - intros E; inversion E. repeat split; try discriminate.
    change (0 <= Z.max 0 (Py.count "*" raw)). lia.
  - intros E; inversion E; subst id. repeat split; auto. lia.
Qed.

(** The identifier of a cell read by [load_table] is never the empty
    string, never ["nil"] and holds no asterisk, so that the export name
    of the cell is its identifier whenever it has one. *)
Theorem loaded_identifiers text table rt dirs :
  load_table text = Ok (table, rt, dirs) ->
  Forall (Forall (fun elem =>
            (forall id, space elem = Some id ->
               id <> "" /\ id <> "nil" /\ Py.count "*" id = 0) /\
            cell_name elem = default "gap" (space elem))) table.
Proof.
  intros E. apply loaded_cells in E.
  eapply Forall_impl; [exact E|]. intros row Hrow. simpl in Hrow.
  eapply Forall_impl; [exact Hrow|]. intros elem (v & z & ->). simpl.
  assert (H : forall id, space_abbr (Py.remove "*" v) = Some id ->
                id <> "" /\ id <> "nil" /\ Py.count "*" id = 0).
  { intros id Hid. destruct (space_abbr_identifier _ _ Hid) as (H1 & H2 & H3).
    rewrite count_remove in H3. pose proof (count_nonneg "*" id).
    repeat split; auto. lia. }
  split; [exact H|]. unfold cell_name. simpl.
  destruct (space_abbr (Py.remove "*" v)) as [id|] eqn:Hid; [|reflexivity].
  destruct (H id eq_refl) as (Hne & _). now destruct id.
Qed.

Lemma loaded_identifiers_witness :
  Forall (Forall (fun elem =>
            (forall id, space elem = Some id ->
               id <> "" /\ id <> "nil" /\ Py.count "*" id = 0) /\
            cell_name elem = default "gap" (space elem))) two_columns_table.
Proof.
  apply (loaded_identifiers two_columns two_columns_table two_columns_refs no_dirs).
  vm_compute. reflexivity.
Defined.

Lemma chars_single (z : string) :
  Forall (fun code => String.length code = 1%nat) (Py.chars z).
Proof. induction z as [|a z IH]; simpl; constructor; auto. Qed.

(** Every ref code of a cell read by [load_table] is one character long:
    a token cell is cut into its characters. *)
Theorem loaded_ref_codes text table rt dirs :
  load_table text = Ok (table, rt, dirs) ->
  Forall (Forall (fun elem =>
            Forall (fun code => String.length code = 1%nat) (refs elem))) table.
Proof.
  intros E. apply loaded_cells in E.
  eapply Forall_impl; [exact E|]. intros row Hrow. simpl in Hrow.
  eapply Forall_impl; [exact Hrow|]. intros elem (v & z & ->). simpl.
  apply chars_single.
Qed.

Lemma loaded_ref_codes_witness :
  Forall (Forall (fun elem =>
            Forall (fun code => String.length code = 1%nat) (refs elem)))
         two_columns_table.
Proof.
  apply (loaded_ref_codes two_columns two_columns_table two_columns_refs no_dirs).
  vm_compute. reflexivity.
Defined.

(** * Further properties of the compositor *)

(** ** Tiles *)

Lemma Image_crop_inv sh x y w h img :
  Image_crop sh (x, y, w, h) = Ok img ->
  img = crop sh (x, y, w, h) /\ x <= w /\ y <= h.
Proof.
  unfold Image_crop.
  destruct (w <? x) eqn:Hx; simpl; [discriminate|].
  destruct (h <? y) eqn:Hy; simpl; [discriminate|].
  destruct (c_int x && c_int y && c_int w && c_int h); [|discriminate].
  intros E; inversion E. apply Z.ltb_ge in Hx, Hy. auto.
Qed.

Lemma Image_crop_reversed sh x y w h :
  w < x \/ h < y -> Image_crop sh (x, y, w, h) = Err (ValueError "crop").
Proof.
  intros Hrev. unfold Image_crop.
  destruct (w <? x) eqn:Hx; simpl; [reflexivity|].
  destruct (h <? y) eqn:Hy; simpl; [reflexivity|].
  apply Z.ltb_ge in Hx, Hy. lia.
Qed.

Lemma ints_err l e : ints l = Err e -> e = ValueError "int".
Proof.
  revert e. induction l as [|s l IH]; simpl; intros e E; [discriminate|].
  destruct (Py.int s); simpl in E; [|now inversion E].
  destruct (ints l); simpl in E; [discriminate|]. inversion E; subst. eauto.
Qed.

Lemma Space_image_inv dictionary elem spaces img :
  Space_image dictionary elem spaces = Ok (Some img) ->
  exists id entry cs x y w h,
    space elem = Some id /\ show elem = true /\
    d_spaces dictionary !! id = Some entry /\ coords entry = Some cs /\
    ints (Py.split "," cs) = Ok [x; y; w; h] /\ x <= w /\ y <= h /\
    img = crop spaces (x, y, w, h).
Proof.
  intros E. unfold Space_image in E.
  destruct (space elem) as [id|] eqn:Hs; [|discriminate].
  destruct (show elem) eqn:Hv; simpl in E; [|discriminate].
  destruct (d_spaces dictionary !! id) as [entry|] eqn:Hd; simpl in E;
    [|discriminate].
  destruct (coords entry) as [cs|] eqn:Hc; simpl in E; [|discriminate].
  destruct (ints (Py.split "," cs)) as [ns|] eqn:Hn; simpl in E; [|discriminate].
  destruct ns as [|x [|y [|w [|h [|k ns]]]]]; try discriminate.
  simpl in E.
  destruct (Image_crop spaces (x, y, w, h)) as [i|] eqn:Hcrop; simpl in E;
    [|discriminate].
  inversion E; subst i.
  destruct (Image_crop_inv _ _ _ _ _ _ Hcrop) as (-> & Hx & Hy).
  exists id, entry, cs, x, y, w, h. repeat split; auto.
Qed.

Lemma Space_image_known dictionary elem spaces o :
  Space_image dictionary elem spaces = Ok o -> tile_known dictionary elem.
Proof.
  intros E id Hs Hv. destruct o as [img|].
  - destruct (Space_image_inv _ _ _ _ E)
      as (id' & entry & cs & x & y & w & h & Hs' & _ & Hd & Hc & Hn & Hx & Hy & _).
    rewrite Hs in Hs'. inversion Hs'; subst id'.
    exists entry, cs, x, y, w, h. auto.
  - apply Space_image_none in E. destruct E as [E|E]; congruence.
Qed.

(** A cell without identifier, or a hidden cell, has no tile, whatever the
    dictionary holds; the dictionary is not looked at.  For a visible cell
    with an identifier in the dictionary, coordinates that are not four
    integers are a value error, and so are four integers whose third is
    less than the first or whose fourth is less than the second: the four
    numbers are the left, upper, right and lower of the crop box, not a
    corner and a size.  A tile that is returned is the crop of the space
    sheet with that box, of width [w - x] and height [h - y]. *)
Theorem Space_image_spec (dictionary : Dictionary) (elem : Space) (spaces : Sheet) :
  (space elem = None \/ show elem = false ->
     Space_image dictionary elem spaces = Ok None) /\
  (forall id entry cs,
     space elem = Some id -> show elem = true ->
     d_spaces dictionary !! id = Some entry -> coords entry = Some cs ->
     (forall ns, ints (Py.split "," cs) = Ok ns -> length ns <> 4%nat ->
        Space_image dictionary elem spaces = Err (ValueError "unpack")) /\
     (forall e, ints (Py.split "," cs) = Err e ->
        Space_image dictionary elem spaces = Err (ValueError "int")) /\
     (forall x y w h, ints (Py.split "," cs) = Ok [x; y; w; h] ->
        w < x \/ h < y ->
        Space_image dictionary elem spaces = Err (ValueError "crop"))) /\
  (forall img, Space_image dictionary elem spaces = Ok (Some img) ->
     exists id entry cs x y w h,
       space elem = Some id /\ show elem = true /\
       d_spaces dictionary !! id = Some entry /\ coords entry = Some cs /\
       ints (Py.split "," cs) = Ok [x; y; w; h] /\ x <= w /\ y <= h /\
       sheet img = spaces /\ box img = (x, y, w, h) /\
       sprite_width img = w - x /\ sprite_height img = h - y).
Proof.
  split; [|split].
  - intros Hskip. now apply Space_image_none.
  - intros id entry cs Hs Hv Hd Hc. unfold Space_image.
    rewrite Hs, Hv, Hd. simpl. rewrite Hc. simpl. split; [|split].
    + intros ns E Hlen. rewrite E. simpl.
      destruct ns as [|x [|y [|w [|h [|k ns]]]]]; try reflexivity.
      now contradiction Hlen.
    + intros e E. rewrite E. simpl. f_equal. now apply ints_err in E.
    + intros x y w h E Hrev. rewrite E. simpl.
      now rewrite (Image_crop_reversed spaces x y w h Hrev).
  - intros img E.
    destruct (Space_image_inv _ _ _ _ E)
      as (id & entry & cs & x & y & w & h & Hs & Hv & Hd & Hc & Hn & Hx & Hy & ->).
    exists id, entry, cs, x, y, w, h. repeat split; auto.
Qed.

Lemma Space_image_spec_witness :
  Space_image dict0 (Space_init "a?" []) SpacesPng = Ok None /\
  Space_image (mkDictionary {[ "a" := mkSpaceEntry (Some "64,0,32,32") ]} ∅ ∅)
    (Space_init "a" []) SpacesPng = Err (ValueError "crop") /\
  exists id entry cs x y w h,
    space (Space_init "a" []) = Some id /\ show (Space_init "a" []) = true /\
    d_spaces dict0 !! id = Some entry /\ coords entry = Some cs /\
    ints (Py.split "," cs) = Ok [x; y; w; h] /\ x <= w /\ y <= h /\
    sheet (crop SpacesPng (0, 0, 32, 32)) = SpacesPng /\
    box (crop SpacesPng (0, 0, 32, 32)) = (x, y, w, h) /\
    sprite_width (crop SpacesPng (0, 0, 32, 32)) = w - x /\
    sprite_height (crop SpacesPng (0, 0, 32, 32)) = h - y.
Proof.
  split; [|split].
  - apply (Space_image_spec dict0 (Space_init "a?" []) SpacesPng).
    right. reflexivity.
  - destruct (Space_image_spec
                (mkDictionary {[ "a" := mkSpaceEntry (Some "64,0,32,32") ]} ∅ ∅)
                (Space_init "a" []) SpacesPng) as (_ & H & _).
    destruct (H "a" (mkSpaceEntry (Some "64,0,32,32")) "64,0,32,32"
                eq_refl eq_refl eq_refl eq_refl) as (_ & _ & Hrev).
    apply (Hrev 64 0 32 32); [reflexivity | left; lia].
  - apply (Space_image_spec dict0 (Space_init "a" []) SpacesPng).
    vm_compute. reflexivity.
Defined.

(** ** Highlight *)

(** [highlight] needs exactly two arguments, the second an integer and
    the first [ROW] or [COLUMN] in capitals; the number is read before the
    first argument is looked at.  When it returns, the image has its size
    unchanged and one more line on top of what was drawn. *)
Theorem highlight_spec (image : Canvas) (args : list string) :
  (length args <> 2%nat -> highlight image args = Err (ValueError "unpack")) /\
  (forall rc num, args = [rc; num] -> Py.int num = None ->
     highlight image args = Err (ValueError "int")) /\
  (forall rc num n, args = [rc; num] -> Py.int num = Some n ->
     rc <> "ROW" -> rc <> "COLUMN" ->
     highlight image args = Err (UnboundLocalError "x0")) /\
  (forall image', highlight image args = Ok image' ->
     highlight_args args /\ size image' = size image /\
     exists op, is_line op /\ log image' = log image ++ [op]).
Proof.
  split; [|split; [|split]].
  - intros Hlen. unfold highlight.
    destruct args as [|rc [|num [|? ?]]]; try reflexivity.
    now contradiction Hlen.
  - intros rc num -> Hn. unfold highlight. now rewrite Hn.
  - intros rc num n -> Hn Hr Hc. unfold highlight. rewrite Hn. simpl.
    destruct (String.eqb_spec rc "ROW"); [contradiction|].
    destruct (String.eqb_spec rc "COLUMN"); [contradiction|]. reflexivity.
  - intros image' E. unfold highlight in E.
    destruct args as [|rc [|num [|? ?]]]; try discriminate.
    destruct (Py.int num) as [n|] eqn:Hn; simpl in E; [|discriminate].
    destruct (String.eqb_spec rc "ROW").
    + apply ImageDraw_line_inv in E. subst.
      split; [exists "ROW", num, n; auto|].
      split; [reflexivity|]. eexists. split; [|reflexivity]. exact I.
    + destruct (String.eqb_spec rc "COLUMN"); [|discriminate].
      apply ImageDraw_line_inv in E. subst.
      split; [exists "COLUMN", num, n; auto|].
      split; [reflexivity|]. eexists. split; [|reflexivity]. exact I.
Qed.

Lemma highlight_spec_witness :
  highlight (Image_new (64, 64)) ["ROW"] = Err (ValueError "unpack") /\
  highlight (Image_new (64, 64)) ["ROW"; "one"] = Err (ValueError "int") /\
  highlight (Image_new (64, 64)) ["row"; "1"] = Err (UnboundLocalError "x0") /\
  highlight_args ["COLUMN"; "1"].
Proof.
  split; [|split; [|split]].
  - apply highlight_spec. discriminate.
  - now apply (highlight_spec (Image_new (64, 64)) ["ROW"; "one"]) with "ROW" "one".
  - apply (highlight_spec (Image_new (64, 64)) ["row"; "1"]) with "row" "1" 1;
      [reflexivity | reflexivity | discriminate | discriminate].
  - eapply (highlight_spec (Image_new (64, 64)) ["COLUMN"; "1"]).
    vm_compute. reflexivity.
Defined.

(** ** When a render returns *)

Lemma for_enumerate_ok_inv {A St : Type} (body : Z -> A -> St -> result St)
    (l : list A) : forall i0 s s',
  for_enumerate body i0 l s = Ok s' ->
  forall (k : nat) a, l !! k = Some a ->
    exists s1 s2, body (i0 + Z.of_nat k) a s1 = Ok s2.
Proof.
  induction l as [|b l IH]; simpl; intros i0 s s' E k a Hk.
  - now rewrite lookup_nil in Hk.
  - destruct (body i0 b s) as [s1|] eqn:E1; simpl in E; [|discriminate].
    destruct k as [|k]; simpl in Hk.
    + inversion Hk; subst b. exists s, s1. now rewrite Z.add_0_r.
    + destruct (IH _ _ _ E k a Hk) as (t1 & t2 & Ht). exists t1, t2.
      now replace (i0 + Z.of_nat (S k)) with (i0 + 1 + Z.of_nat k) by lia.
Qed.

Lemma for_each_ok_inv {A St : Type} (body : A -> St -> result St)
    (l : list A) : forall s s',
  for_each body l s = Ok s' ->
  forall a, a ∈ l -> exists s1 s2, body a s1 = Ok s2.
Proof.
  induction l as [|b l IH]; simpl; intros s s' E a Ha.
  - now apply not_elem_of_nil in Ha.
  - destruct (body b s) as [s1|] eqn:E1; simpl in E; [|discriminate].
    apply elem_of_cons in Ha. destruct Ha as [->|Ha]; eauto.
Qed.

Lemma highlight_ok_inv image args image' :
  highlight image args = Ok image' -> highlight_args args.
Proof.
  unfold highlight. destruct args as [|rc [|num [|? ?]]]; try discriminate.
  destruct (Py.int num) as [n|] eqn:Hn; simpl; [|discriminate].
  destruct (String.eqb_spec rc "ROW"); [intros _; exists rc, num, n; auto|].
  destruct (String.eqb_spec rc "COLUMN"); [intros _; exists rc, num, n; auto|].
  discriminate.
Qed.

Lemma space_pass_known dictionary lyr table res res' :
  space_pass dictionary lyr table res = Ok res' ->
  Forall (Forall (fun elem => layer elem = Some lyr ->
                    tile_known dictionary elem)) table.
Proof.
  intros E. unfold space_pass in E.
  apply Forall_forall. intros row Hrow.
  apply list_elem_of_lookup_1 in Hrow. destruct Hrow as [y Hy].
  destruct (for_enumerate_ok_inv _ _ _ _ _ E y row Hy) as (s1 & s2 & Er).
  apply Forall_forall. intros elem Helem.
  apply list_elem_of_lookup_1 in Helem. destruct Helem as [x Hx].
  destruct (for_enumerate_ok_inv _ _ _ _ _ Er x elem Hx) as (t1 & t2 & Ee).
  intros Hl. unfold paste_space in Ee.
  destruct (decide (layer elem = Some lyr)); [|contradiction].
  destruct (Space_image dictionary elem SpacesPng) as [o|] eqn:Ei;
    simpl in Ee; [|discriminate].
  now apply Space_image_known in Ei.
Qed.

Lemma ref_pass_resolves dictionary rt table res res' :
  ref_pass dictionary rt table res = Ok res' -> codes_resolve rt table.
Proof.
  intros E. unfold ref_pass in E.
  apply Forall_forall. intros row Hrow.
  apply list_elem_of_lookup_1 in Hrow. destruct Hrow as [y Hy].
  destruct (for_enumerate_ok_inv _ _ _ _ _ E y row Hy) as (s1 & s2 & Er).
  apply Forall_forall. intros elem Helem.
  apply list_elem_of_lookup_1 in Helem. destruct Helem as [x Hx].
  destruct (for_enumerate_ok_inv _ _ _ _ _ Er x elem Hx) as (t1 & t2 & Ee).
  apply Forall_forall. intros code Hc.
  destruct (for_each_ok_inv _ _ _ _ Ee code Hc) as (u1 & u2 & Ec).
  unfold paste_ref in Ec. destruct (rt !! code); [eauto | discriminate].
Qed.

Lemma run_dirs_runnable dirs res img :
  run_dirs dirs res = Ok img -> dirs_runnable dirs.
Proof.
  unfold run_dirs, dirs_runnable. intros E.
  destruct (closures dirs) as [|[] l]; [auto|]. right.
  destruct (for_each_ok_inv _ _ _ _ E Lambda_image (list_elem_of_here _ _))
    as (s1 & s2 & Ec).
  unfold call in Ec. destruct (fn (frame dirs)) as [[]|]; simpl in Ec;
    [|discriminate].
  exists fn_highlight. split; [reflexivity|]. now apply highlight_ok_inv in Ec.
Qed.

(** [render_image] returns an image only when the table is not empty and
    its rows are equally long, every visible cell with an identifier has
    coordinates in the dictionary that are four integers with the third
    not less than the first and the fourth not less than the second, every
    ref code of the grid is in the ref table, and the directives, if any,
    have arguments [highlight] accepts.  Whether a token or an item has an
    image does not matter. *)
Theorem render_image_returns dictionary table rt dirs img :
  render_image dictionary table rt dirs = Ok img ->
  is_Some (shape table) /\
  Forall (Forall (tile_known dictionary)) table /\
  codes_resolve rt table /\
  dirs_runnable dirs.
Proof.
  unfold render_image. intros E.
  destruct (shape table) as [[h w]|]; simpl in E; [|discriminate].
  destruct (space_pass dictionary 0 table _) as [c0|] eqn:E0;
    simpl in E; [|discriminate].
  destruct (space_pass dictionary 1 table c0) as [c1|] eqn:E1;
    simpl in E; [|discriminate].
  destruct (ref_pass dictionary rt table c1) as [c2|] eqn:E2;
    simpl in E; [|discriminate].
  destruct (run_dirs dirs c2) as [c3|] eqn:E3; simpl in E; [|discriminate].
  split; [eauto|]. split; [|split].
  - apply space_pass_known in E0, E1.
    rewrite Forall_forall in E0, E1. apply Forall_forall. intros row Hrow.
    specialize (E0 row Hrow). specialize (E1 row Hrow).
    rewrite Forall_forall in E0, E1. apply Forall_forall. intros elem He.
    destruct (space elem) as [id|] eqn:Hs.
    + destruct (layer_of_identifier elem id Hs); [apply E0 | apply E1]; auto.
    + intros id Hid. congruence.
  - now apply ref_pass_resolves in E2.
  - now apply run_dirs_runnable in E3.
Qed.

Lemma render_image_returns_witness :
  is_Some (shape two_columns_table) /\
  Forall (Forall (tile_known dict0)) two_columns_table /\
  codes_resolve two_columns_refs two_columns_table /\
  dirs_runnable row_one_dirs.
Proof.
  apply (render_image_returns dict0 two_columns_table
           two_columns_refs row_one_dirs two_columns_image).
  vm_compute. reflexivity.
Defined.

Lemma shape_rectangular table h w :
  shape table = Some (h, w) ->
  table <> [] /\ h = Z.of_nat (length table) /\
  Forall (fun row : list Space => Z.of_nat (length row) = w) table.
Proof.
  unfold shape. destruct table as [|row rest]; [discriminate|].
  destruct (forallb _ rest) eqn:Hall; [|discriminate].
  intros E; inversion E; subst. split; [discriminate|]. split; [reflexivity|].
  constructor; [reflexivity|].
  induction rest as [|r rest IH]; [constructor|].
  simpl in Hall. apply andb_true_iff in Hall. destruct Hall as [Hr Hrest].
  apply Nat.eqb_eq in Hr. constructor; [congruence | auto].
Qed.

Lemma run_dirs_size dirs res img :
  run_dirs dirs res = Ok img -> size img = size res.
Proof.
  unfold run_dirs. generalize (closures dirs) as l. intros l. revert res.
  induction l as [|[] l IH]; simpl; intros res E.
  - now inversion E.
  - destruct (call (frame dirs) Lambda_image res) as [c|] eqn:Ec;
      simpl in E; [|discriminate].
    unfold call in Ec. destruct (fn (frame dirs)) as [[]|]; simpl in Ec;
      [|discriminate].
    destruct (highlight_draws _ _ _ Ec) as [pts ->].
    now rewrite (IH _ E).
Qed.

(** The image [render_image] returns is 32 pixels wide per column and 32
    pixels high per row of the grid, and it is returned only for a grid
    that has at least one row and rows of one length; a grid without rows
    ends in a value error. *)
Theorem render_image_size dictionary table rt dirs :
  (forall img, render_image dictionary table rt dirs = Ok img ->
     table <> [] /\
     exists w : nat,
       Forall (fun row : list Space => length row = w) table /\
       size img = (Z.of_nat w * 32, Z.of_nat (length table) * 32)) /\
  (table = [] ->
     render_image dictionary table rt dirs = Err (ValueError "unpack")).
Proof.
  split; [|now intros ->].
  unfold render_image. intros img E.
  destruct (shape table) as [[h w]|] eqn:Hsh; simpl in E; [|discriminate].
  destruct (space_pass dictionary 0 table _) as [c0|] eqn:E0;
    simpl in E; [|discriminate].
  destruct (space_pass dictionary 1 table c0) as [c1|] eqn:E1;
    simpl in E; [|discriminate].
  destruct (ref_pass dictionary rt table c1) as [c2|] eqn:E2;
    simpl in E; [|discriminate].
  destruct (run_dirs dirs c2) as [c3|] eqn:E3; simpl in E; [|discriminate].
  inversion E; subst c3. clear E.
  apply space_pass_extends in E0. destruct E0 as (_ & _ & S0 & _).
  apply space_pass_extends in E1. destruct E1 as (_ & _ & S1 & _).
  apply ref_pass_extends in E2. destruct E2 as (_ & _ & S2 & _).
  apply run_dirs_size in E3.
  destruct (shape_rectangular _ _ _ Hsh) as (Hne & -> & Hrows).
  split; [exact Hne|].
  destruct table as [|row rest]; [contradiction|].
  exists (length row). split.
  - inversion Hrows as [|? ? Hrow Hrest]; subst.
    eapply Forall_impl; [exact Hrows|]. simpl. intros r Hr. lia.
  - rewrite E3, S2, S1, S0. simpl.
    inversion Hrows as [|? ? Hrow Hrest]; subst. reflexivity.
Qed.

Lemma render_image_size_witness :
  two_columns_table <> [] /\
  exists w : nat,
    Forall (fun row : list Space => length row = w) two_columns_table /\
    size two_columns_image =
      (Z.of_nat w * 32, Z.of_nat (length two_columns_table) * 32).
Proof.
  apply (proj1 (render_image_size dict0 two_columns_table
                  two_columns_refs row_one_dirs)).
  vm_compute. reflexivity.
Defined.

(** * Further properties of the JSON exporter *)

Lemma json_ref_err rt y x code (tokens : list TokenObj) e :
  json_ref rt y x code tokens = Err e -> e = KeyError code /\ rt !! code = None.
Proof.
  unfold json_ref. destruct (rt !! code) as [r|]; simpl.
  - destruct (pos r). discriminate.
  - intros E; inversion E. auto.
Qed.

Lemma json_refs_err rt y x codes : forall (tokens : list TokenObj) e,
  for_each (json_ref rt y x) codes tokens = Err e ->
  exists code, code ∈ codes /\ e = KeyError code /\ rt !! code = None.
Proof.
  induction codes as [|c codes IH]; simpl; intros tokens e E; [discriminate|].
  destruct (json_ref rt y x c tokens) as [t1|e1] eqn:E1; simpl in E.
  - destruct (IH _ _ E) as (code & Hin & He & Hn). exists code.
    split; [now apply list_elem_of_further | auto].
  - inversion E; subst e1. destruct (json_ref_err _ _ _ _ _ _ E1) as [He Hn].
    exists c. split; [apply list_elem_of_here | auto].
Qed.

Lemma json_cells_err rt y row : forall x0 (st : list string * list TokenObj) e,
  for_enumerate (json_cell rt y) x0 row st = Err e ->
  exists elem code, elem ∈ row /\ code ∈ refs elem /\
    e = KeyError code /\ rt !! code = None.
Proof.
  induction row as [|el row IH]; simpl; intros x0 [curr tokens] e E;
    [discriminate|].
  destruct (json_cell rt y x0 el (curr, tokens)) as [st1|e1] eqn:E1; simpl in E.
  - destruct (IH _ _ _ E) as (elem & code & Hin & Hc & He & Hn).
    exists elem, code. split; [now apply list_elem_of_further | auto].
  - inversion E; subst e1. unfold json_cell in E1.
    destruct (for_each (json_ref rt y x0) (refs el) tokens) as [t|e2] eqn:E2;
      simpl in E1; [discriminate|].
    inversion E1; subst e2.
    destruct (json_refs_err _ _ _ _ _ _ E2) as (code & Hc & He & Hn).
    exists el, code. split; [apply list_elem_of_here | auto].
Qed.

Lemma json_rows_err rt table :
  forall y0 (st : list (list string) * list TokenObj) e,
  for_enumerate (json_row rt) y0 table st = Err e ->
  exists row elem code, row ∈ table /\ elem ∈ row /\ code ∈ refs elem /\
    e = KeyError code /\ rt !! code = None.
Proof.
  induction table as [|r table IH]; simpl; intros y0 [spaces tokens] e E;
    [discriminate|].
  destruct (json_row rt y0 r (spaces, tokens)) as [st1|e1] eqn:E1; simpl in E.
  - destruct (IH _ _ _ E) as (row & elem & code & Hin & H).
    exists row, elem, code. split; [now apply list_elem_of_further | auto].
  - inversion E; subst e1. unfold json_row in E1.
    destruct (for_enumerate (json_cell rt y0) 0 r ([], tokens)) as [[c t]|e2] eqn:E2;
      simpl in E1; [discriminate|].
    inversion E1; subst e2.
    destruct (json_cells_err _ _ _ _ _ _ E2) as (elem & code & He & H).
    exists r, elem, code. split; [apply list_elem_of_here | auto].
Qed.

(** The export fails only on a ref code of the grid that is not in the
    ref table, with the key error of that code, and it returns whenever
    there is no such code; the sprite dictionary and the directives play
    no part. *)
Theorem render_json_returns (table : list (list Space)) (rt : gmap string Ref) :
  ((exists data, render_json table rt = Ok data) <-> codes_resolve rt table) /\
  (forall e, render_json table rt = Err e ->
     exists row elem code,
       row ∈ table /\ elem ∈ row /\ code ∈ refs elem /\
       rt !! code = None /\ e = KeyError code).
Proof.
  assert (Herr : forall e, render_json table rt = Err e ->
     exists row elem code,
       row ∈ table /\ elem ∈ row /\ code ∈ refs elem /\
       rt !! code = None /\ e = KeyError code).
  { intros e E. unfold render_json in E.
    destruct (for_enumerate (json_row rt) 0 table ([], [])) as [[s t]|e1] eqn:E1;
      simpl in E; [discriminate|].
    inversion E; subst e1.
    destruct (json_rows_err _ _ _ _ _ E1) as (row & elem & code & H1 & H2 & H3 & H4 & H5).
    exists row, elem, code. auto. }
  split; [|exact Herr]. split.
  - intros [data E]. unfold render_json in E.
    destruct (for_enumerate (json_row rt) 0 table ([], [])) as [[s t]|e1] eqn:E1;
      simpl in E; [|discriminate].
    apply Forall_forall. intros row Hrow.
    apply list_elem_of_lookup_1 in Hrow. destruct Hrow as [y Hy].
    destruct (for_enumerate_ok_inv _ _ _ _ _ E1 y row Hy) as ([s1 t1] & st2 & Er).
    unfold json_row in Er.
    destruct (for_enumerate (json_cell rt (0 + Z.of_nat y)) 0 row ([], t1))
      as [st3|] eqn:Ec; simpl in Er; [|discriminate].
    apply Forall_forall. intros elem Helem.
    apply list_elem_of_lookup_1 in Helem. destruct Helem as [x Hx].
    destruct (for_enumerate_ok_inv _ _ _ _ _ Ec x elem Hx) as ([c4 t4] & st5 & Ee).
    unfold json_cell in Ee.
    destruct (for_each (json_ref rt (0 + Z.of_nat y) (0 + Z.of_nat x))
                (refs elem) t4) as [t6|] eqn:Ef; simpl in Ee; [|discriminate].
    apply Forall_forall. intros code Hcode.
    destruct (for_each_ok_inv _ _ _ _ Ef code Hcode) as (u1 & u2 & Ej).
    destruct (json_ref_inv _ _ _ _ _ _ Ej) as (r & Hr & _). eauto.
  - intros Hall. unfold render_json.
    destruct (json_rows_ok rt table 0 ([], []) Hall) as [[s t] E].
    rewrite E. simpl. eauto.
Qed.

Lemma render_json_returns_witness :
  codes_resolve json_refs json_table /\
  exists row elem code,
    row ∈ json_table /\ elem ∈ row /\ code ∈ refs elem /\
    (∅ : gmap string Ref) !! code = None /\ KeyError "t" = KeyError code.
Proof.
  destruct (render_json_returns json_table json_refs) as [Hiff _].
  destruct (render_json_returns json_table ∅) as [_ Herr].
  split.
  - apply Hiff. eexists. vm_compute. reflexivity.
  - apply Herr. vm_compute. reflexivity.
Defined.

Lemma json_refs_exact rt y x codes : forall (tokens tokens' : list TokenObj),
  for_each (json_ref rt y x) codes tokens = Ok tokens' ->
  exists objs, tokens' = tokens ++ objs /\
    Forall2 (entry_of rt) (map (fun code => (y, x, code)) codes) objs.
Proof.
  induction codes as [|c codes IH]; simpl; intros tokens tokens' E.
  - inversion E. exists []. split; [now rewrite app_nil_r | constructor].
  - destruct (json_ref rt y x c tokens) as [t1|] eqn:E1; simpl in E; [|discriminate].
    destruct (json_ref_inv _ _ _ _ _ _ E1) as (r1 & Hr1 & ->).
    destruct (IH _ _ E) as (objs & -> & Hobjs).
    exists (token_obj r1 y x :: objs). split; [now rewrite <- app_assoc|].
    constructor; [|exact Hobjs]. exists r1. repeat split. exact Hr1.
Qed.

Lemma json_cells_exact rt y row : forall x0 (curr curr' : list string)
    (tokens tokens' : list TokenObj),
  for_enumerate (json_cell rt y) x0 row (curr, tokens) = Ok (curr', tokens') ->
  exists objs, tokens' = tokens ++ objs /\
    Forall2 (entry_of rt) (placed_row y x0 row) objs.
Proof.
  induction row as [|e row IH]; simpl; intros x0 curr curr' tokens tokens' E.
  - inversion E; subst. exists []. split; [now rewrite app_nil_r | constructor].
  - destruct (json_cell rt y x0 e (curr, tokens)) as [[c1 t1]|] eqn:E1;
      simpl in E; [|discriminate].
    unfold json_cell in E1.
    destruct (for_each (json_ref rt y x0) (refs e) tokens) as [t|] eqn:Ef;
      simpl in E1; [|discriminate].
    inversion E1; subst c1 t1.
    destruct (json_refs_exact _ _ _ _ _ _ Ef) as (o1 & -> & H1).
    destruct (IH _ _ _ _ _ E) as (o2 & -> & H2).
    exists (o1 ++ o2). split; [now rewrite app_assoc|].
    now apply Forall2_app.
Qed.

Lemma json_rows_exact rt table : forall y0 (spaces spaces' : list (list string))
    (tokens tokens' : list TokenObj),
  for_enumerate (json_row rt) y0 table (spaces, tokens) = Ok (spaces', tokens') ->
  exists objs, tokens' = tokens ++ objs /\
    Forall2 (entry_of rt) (placed_from y0 table) objs.
Proof.
  induction table as [|row table IH]; simpl;
    intros y0 spaces spaces' tokens tokens' E.
  - inversion E; subst. exists []. split; [now rewrite app_nil_r | constructor].
  - destruct (json_row rt y0 row (spaces, tokens)) as [[s1 t1]|] eqn:E1;
      simpl in E; [|discriminate].
    unfold json_row in E1.
    destruct (for_enumerate (json_cell rt y0) 0 row ([], tokens))
      as [[c t]|] eqn:Ec; simpl in E1; [|discriminate].
    inversion E1; subst s1 t1.
    destruct (json_cells_exact _ _ _ _ _ _ _ _ Ec) as (o1 & -> & H1).
    destruct (IH _ _ _ _ _ E) as (o2 & -> & H2).
    exists (o1 ++ o2). split; [now rewrite app_assoc|].
    now apply Forall2_app.
Qed.

Lemma placed_row_length y row : forall x,
  length (placed_row y x row) = length (concat (map refs row)).
Proof.
  induction row as [|e row IH]; simpl; intros x; [reflexivity|].
  now rewrite !length_app, length_map, IH.
Qed.

Lemma placed_from_length table : forall y,
  length (placed_from y table) = length (flat_refs table).
Proof.
  unfold flat_refs. induction table as [|row table IH]; simpl; intros y;
    [reflexivity|].
  now rewrite !length_app, placed_row_length, IH.
Qed.

(** The token list of the export has one entry per ref code of the grid
    and nothing else, in the order of the rows, of the cells in a row and
    of the codes in a cell; each entry carries the exported name of its
    ref and the position of its cell plus the offset of the ref. *)
Theorem render_json_tokens (table : list (list Space)) (rt : gmap string Ref) data :
  render_json table rt = Ok data ->
  exists board,
    data !! "0" = Some board /\
    Forall2 (entry_of rt) (placed_from 0 table) (b_tokens board) /\
    length (b_tokens board) = length (flat_refs table).
Proof.
  intros E. unfold render_json in E.
  destruct (for_enumerate (json_row rt) 0 table ([], [])) as [[s t]|] eqn:E1;
    simpl in E; [|discriminate].
  inversion E; subst data. clear E.
  destruct (json_rows_exact _ _ _ _ _ _ _ E1) as (objs & -> & Hobjs).
  eexists. split; [apply lookup_singleton_eq|]. simpl. split; [exact Hobjs|].
  apply Forall2_length in Hobjs. now rewrite <- Hobjs, placed_from_length.
Qed.

Lemma render_json_tokens_witness :
  exists board,
    Forall2 (entry_of json_refs) [(1, 2, "t")] (b_tokens board) /\
    length (b_tokens board) = 1%nat.
Proof.
  destruct (render_json json_table json_refs) as [data|] eqn:E;
    [|vm_compute in E; discriminate].
  destruct (render_json_tokens json_table json_refs data E)
    as (board & _ & Hall & Hlen).
  exists board. split; [exact Hall | exact Hlen].
Defined.

(** * Further properties of the board and ref sections *)

(** The board loop takes the lines three by three and stops at the first
    blank line in the place of a spaces line.  Only the spaces line of a
    group decides whether the loop goes on: its tokens line may be blank,
    and its separator line is not looked at.  The lines after the blank
    line are left for the ref section. *)
Theorem read_board_groups (groups : list (string * string * string))
    (blank_line : string) (rest : list string) :
  Forall (fun g => blank (fst (fst g)) = false) groups ->
  blank blank_line = true ->
  read_board (group_lines groups ++ blank_line :: rest) =
  (map (fun g => read_row (fst (fst g)) (snd (fst g))) groups, rest).
Proof.
  intros Hg Hb. induction Hg as [|[[s t] h] groups Hs _ IH]; simpl.
  - now rewrite Hb.
  - simpl in Hs. rewrite Hs. unfold group_lines in IH. now rewrite IH.
Qed.

Lemma read_board_groups_witness :
  read_board (group_lines [("| a | b |", "", "anything")] ++ "  " :: ["t k nil 0 0"]) =
  (map (fun g => read_row (fst (fst g)) (snd (fst g)))
       [("| a | b |", "", "anything")],
   ["t k nil 0 0"]).
Proof.
  apply read_board_groups.
  - repeat constructor.
  - reflexivity.
Defined.

Lemma nospace_snoc (w : string) (a : ascii) :
  nospace w = true -> Py.isspace a = false ->
  nospace (w +:+ String a "") = true.
Proof.
  intros Hw Ha. induction w as [|b w IH]; simpl in *.
  - now rewrite Ha.
  - apply andb_true_iff in Hw. destruct Hw as [Hb Hw]. rewrite Hb. simpl. auto.
Qed.

Lemma snoc_nonempty (w : string) (a : ascii) : w +:+ String a "" <> "".
Proof. destruct w; discriminate. Qed.

Lemma words_go_words (s : string) : forall cur,
  (forall w, cur = Some w -> is_word w) ->
  Forall is_word (Py.words_go cur s).
Proof.
  induction s as [|a s IH]; simpl; intros cur Hcur.
  - destruct cur as [w|]; constructor; auto.
  - destruct (Py.isspace a) eqn:Ha.
    + destruct cur as [w|].
      * constructor; [auto|]. apply IH. discriminate.
      * apply IH. discriminate.
    + destruct cur as [w|]; apply IH; intros w' E; inversion E; subst w'.
      * destruct (Hcur w eq_refl) as [_ Hw]. split.
        -- apply snoc_nonempty.
        -- now apply nospace_snoc.
      * split; [discriminate|]. simpl. now rewrite Ha.
Qed.

Lemma words_are_words (s : string) : Forall is_word (Py.words s).
Proof. apply words_go_words. discriminate. Qed.

Lemma parse_ref_words_ok line code r :
  parse_ref line = Some (code, r) ->
  is_word code /\ is_word (name r) /\ is_word (item r).
Proof.
  unfold parse_ref. pose proof (words_are_words line) as Hw.
  destruct (Py.words line) as [|w1 [|w2 [|w3 [|w4 [|w5 [|w6 ws]]]]]];
    try discriminate.
  destruct (Py.int w4); [|discriminate]. destruct (Py.int w5); [|discriminate].
  intros E; inversion E; subst. simpl.
  inversion Hw as [|? ? H1 Hw1]; subst. inversion Hw1 as [|? ? H2 Hw2]; subst.
  inversion Hw2 as [|? ? H3 _]; subst. auto.
Qed.

Lemma fold_store_words lines : forall rt : gmap string Ref,
  (forall code r, rt !! code = Some r ->
     is_word code /\ is_word (name r) /\ is_word (item r)) ->
  forall code r, fold_left store_ref lines rt !! code = Some r ->
    is_word code /\ is_word (name r) /\ is_word (item r).
Proof.
  induction lines as [|l lines IH]; simpl; intros rt Hrt; [exact Hrt|].
  apply IH. intros code r. rewrite store_ref_lookup.
  destruct (parse_ref l) as [[c r0]|] eqn:Hp; [|apply Hrt].
  destruct (decide (c = code)) as [->|]; [|apply Hrt].
  intros E; inversion E; subst r0. now apply parse_ref_words_ok in Hp.
Qed.

Lemma load_table_refs text table rt dirs :
  load_table text = Ok (table, rt, dirs) ->
  exists infile, rt = fold_left store_ref (section_lines infile) ∅.
Proof.
  unfold load_table.
  destruct (Py.int _) as [version|]; simpl; [|discriminate].
  destruct (version =? 1); simpl; [|discriminate].
  destruct (read_board _) as [t rest]; simpl.
  destruct (read_refs ∅ rest) as [[r rest']|] eqn:Er; simpl; [|discriminate].
  destruct (read_dirs _ _ rest') as [d|]; simpl; [|discriminate].
  destruct (np_array t) as [t'|]; simpl; [|discriminate].
  intros E; inversion E; subst. exists rest.
  now destruct (read_refs_fold _ _ _ _ Er).
Qed.

(** The codes, names and item identifiers of a ref table read by
    [load_table] are words: not empty and without blank characters.  So a
    blank character that stands between two codes in a token cell is a
    ref code the table cannot hold. *)
Theorem loaded_ref_keys text table rt dirs :
  load_table text = Ok (table, rt, dirs) ->
  (forall code r, rt !! code = Some r ->
     is_word code /\ is_word (name r) /\ is_word (item r)) /\
  (forall a, Py.isspace a = true -> rt !! String a "" = None).
Proof.
  intros E. destruct (load_table_refs _ _ _ _ E) as [infile ->].
  assert (H : forall code r,
             fold_left store_ref (section_lines infile) ∅ !! code = Some r ->
             is_word code /\ is_word (name r) /\ is_word (item r)).
  { apply fold_store_words. intros code r Hr. now rewrite lookup_empty in Hr. }
  split; [exact H|]. intros a Ha.
  destruct (fold_left store_ref (section_lines infile) ∅ !! String a "")
    as [r|] eqn:Hr; [|reflexivity].
  destruct (H _ _ Hr) as [[_ Hw] _]. simpl in Hw. now rewrite Ha in Hw.
Qed.

Lemma loaded_ref_keys_witness :
  (forall code r, two_columns_refs !! code = Some r ->
     is_word code /\ is_word (name r) /\ is_word (item r)) /\
  (forall a, Py.isspace a = true -> two_columns_refs !! String a "" = None).
Proof.
  apply (loaded_ref_keys two_columns two_columns_table two_columns_refs no_dirs).
  vm_compute. reflexivity.
Defined.
